(** * SWAT: virtual filesystem, command registry and terminal pipeline

    A shallow embedding of the JavaScript of the SWAT toolkit (terminal demo
    [apps/terminal/main.js], [lib/vfs.js], [lib/storage.js]) and the
    properties its specification states about it.

    JavaScript strings are modelled as [string]: a sequence of code units,
    here restricted to the range 0..255.  Plain objects used as maps are
    [gmap]s, arrays are lists, [undefined]/[null] results are [option]s. *)

From Stdlib Require Import String Ascii List ZArith Lia Bool.
From stdpp Require Import base strings gmap list pretty.
Import ListNotations.
Open Scope string_scope.
Open Scope list_scope.

(* ===================================================================== *)
(** * JavaScript string and array primitives used by the code *)
(* ===================================================================== *)

Module JS.

(** [s.split(sep)] for a one-character separator: never returns the empty
    array, [''.split('/')] is [['']] and ['/'.split('/')] is [['', '']]. *)
Fixpoint split (sep : ascii) (s : string) : list string :=
  match s with
  | EmptyString => [EmptyString]
  | String c rest =>
      if Ascii.eqb c sep then EmptyString :: split sep rest
      else match split sep rest with
           | hd :: tl => String c hd :: tl
           | [] => [String c EmptyString]
           end
  end.

(** [arr.join(sep)] *)
Definition join (sep : string) (arr : list string) : string :=
  String.concat sep arr.

(** [s.startsWith(p)] *)
Fixpoint startsWith (s p : string) {struct p} : bool :=
  match p, s with
  | EmptyString, _ => true
  | String a p', String b s' => Ascii.eqb a b && startsWith s' p'
  | String _ _, EmptyString => false
  end.

(** [arr.push(x)] (the array after the call). *)
Definition push {A} (arr : list A) (x : A) : list A := arr ++ [x].

(** [arr.pop()] (the array after the call): on an empty array [pop] returns
    [undefined] and leaves the array empty; it does not throw. *)
Definition pop {A} (arr : list A) : list A := removelast arr.

(** [arr.includes(x)] on an array of strings (SameValueZero is string
    equality). *)
Definition arr_includes (arr : list string) (x : string) : bool :=
  existsb (String.eqb x) arr.

(** White space as matched by [/\s/] and removed by [trim], for code units
    below 256: TAB, LF, VT, FF, CR, SPACE and NBSP. *)
Definition is_space (c : ascii) : bool :=
  let n := nat_of_ascii c in
  ((9 <=? n)%nat && (n <=? 13)%nat) || (n =? 32)%nat || (n =? 160)%nat.

Fixpoint trimStart (s : string) : string :=
  match s with
  | EmptyString => EmptyString
  | String c rest => if is_space c then trimStart rest else s
  end.

(** Removes trailing white space: a character is kept when it is not white
    space or when something that is kept follows it. *)
Fixpoint trimEnd (s : string) : string :=
  match s with
  | EmptyString => EmptyString
  | String c rest =>
      match trimEnd rest with
      | EmptyString => if is_space c then EmptyString else String c EmptyString
      | r => String c r
      end
  end.

(** [s.trim()] *)
Definition trim (s : string) : string := trimEnd (trimStart s).

(** Truthiness of a string: the empty string is falsy. *)
Definition truthy (s : string) : bool := negb (String.eqb s "").

(** [s.includes(pat)]: [pat] occurs in [s] at some position. *)
Fixpoint includes (s pat : string) : bool :=
  startsWith s pat ||
  match s with
  | EmptyString => false
  | String _ rest => includes rest pat
  end.

(** [s.slice(n)] for [0 <= n]. *)
Fixpoint slice (n : nat) (s : string) : string :=
  match n, s with
  | O, _ => s
  | S n', String _ rest => slice n' rest
  | S _, EmptyString => EmptyString
  end.

(** The characters of [s] avoid [sep]. *)
Fixpoint sepfree (sep : ascii) (s : string) : bool :=
  match s with
  | EmptyString => true
  | String c rest => negb (Ascii.eqb c sep) && sepfree sep rest
  end.

(** [arr.sort()] on strings: ascending in code-unit order. *)
Fixpoint sort_insert (x : string) (arr : list string) : list string :=
  match arr with
  | [] => [x]
  | y :: rest => if String.leb x y then x :: arr else y :: sort_insert x rest
  end.

Definition sort (arr : list string) : list string :=
  fold_right sort_insert [] arr.

(** How a call completes: normally with a value, or by throwing an [Error]
    with a message. *)
Inductive completion (A : Type) : Type :=
| Normal (value : A)
| Throw (message : string).
Arguments Normal {A} value.
Arguments Throw {A} message.

(** [x || d] on a possibly [undefined] string: falsy is [undefined] or ['']. *)
Definition or_else (x : option string) (d : string) : string :=
  match x with
  | Some s => if truthy s then s else d
  | None => d
  end.

(** [!x] on a possibly [undefined] string. *)
Definition falsy (x : option string) : bool :=
  match x with
  | Some s => negb (truthy s)
  | None => true
  end.

(** The string that [x] holds once [!x] has been ruled out. *)
Definition the (x : option string) : string := default "" x.

End JS.

(* ===================================================================== *)
(** * Vocabulary of the specification *)
(* ===================================================================== *)

Module Spec.

(** A blank line: every character of [s] is white space. *)
Definition Blank (s : string) : Prop :=
  forall c, In c (list_ascii_of_string s) -> JS.is_space c = true.

(** [pat] occurs in [s] as a substring. *)
Definition Substring (pat s : string) : Prop :=
  exists pre post, s = pre +:+ pat +:+ post.

(** [kept] is [l] with exactly the elements satisfying [P] retained, in
    their original order and with their multiplicity. *)
Inductive Kept {A} (P : A -> Prop) : list A -> list A -> Prop :=
| Kept_nil : Kept P [] []
| Kept_keep x l kept : P x -> Kept P l kept -> Kept P (x :: l) (x :: kept)
| Kept_drop x l kept : ~ P x -> Kept P l kept -> Kept P (x :: l) kept.

End Spec.

(* ===================================================================== *)
(** * Virtual filesystem ([lib/vfs.js]) *)
(* ===================================================================== *)

Module VFS.

Inductive FileType := text | blob.

Record FileNode := mkFileNode {
  type : FileType;
  content : string;
  mtime : Z
}.

(** [this.state]: [{cwd, files: {path: node}, history: [...]}]. *)
Record FileSystemState := mkState {
  cwd : string;
  files : gmap string FileNode;
  history : list string
}.

(** The filter of [normalizePath]: [p => p && p !== '.'] *)
Definition keep_part (p : string) : bool :=
  JS.truthy p && negb (String.eqb p ".").

(** The body of the [for (const part of parts)] loop. *)
Definition step (stack : list string) (part : string) : list string :=
  if String.eqb part ".." then JS.pop stack else JS.push stack part.

(** [normalizePath(path)]:
<<
    if (!path.startsWith('/')) path = this.state.cwd + '/' + path;
    const parts = path.split('/').filter(p => p && p !== '.');
    const stack = [];
    for (const part of parts) {
        if (part === '..') { stack.pop(); } else { stack.push(part); }
    }
    return '/' + stack.join('/');
>> *)
Definition normalizePath (st : FileSystemState) (path : string) : string :=
  let path := if negb (JS.startsWith path "/") then cwd st +:+ "/" +:+ path
              else path in
  let parts := List.filter keep_part (JS.split "/" path) in
  let stack := fold_left step parts [] in
  "/" +:+ JS.join "/" stack.

(** The [stack] of [normalizePath] when the loop ends; its length is the
    depth below the root that [path] resolves to. *)
Definition segments (st : FileSystemState) (path : string) : list string :=
  let path := if negb (JS.startsWith path "/") then cwd st +:+ "/" +:+ path
              else path in
  fold_left step (List.filter keep_part (JS.split "/" path)) [].

Definition depth (st : FileSystemState) (path : string) : nat :=
  length (segments st path).

(** A path made of [n] segments [..]: [".."], ["../.."], ... *)
Definition dotdots (n : nat) : list string := repeat ".." n.

(** A segment of a normalized path: not empty, neither [.] nor [..], and
    without a slash. *)
Definition seg_ok (s : string) : Prop :=
  keep_part s = true /\ String.eqb s ".." = false /\ JS.sepfree "/" s = true.

(** The state of a VFS that was initialized empty. *)
Definition empty_fs : FileSystemState := mkState "/" ∅ [].

(** [write(path, content)], with [now] the value of [Date.now()]:
<<
    path = this.normalizePath(path);
    this.state.files[path] = { type: 'text', content, mtime: Date.now() };
>>
    Keys of [files] start with a slash, so none collides with a property
    inherited by a plain object.  The state is then saved through the
    storage adapter, which does not change [this.state]. *)
Definition write (now : Z) (st : FileSystemState) (path content : string)
  : FileSystemState :=
  let path := normalizePath st path in
  mkState (cwd st) (<[path := mkFileNode text content now]> (files st))
          (history st).

(** Modelled from the spec: [read(path)] of [lib/vfs.js], of which the
    sources only quote the guard
    [if (!file || file.type !== 'text') throw new Error('ENOENT')].
    The lookup of the node at the normalized path and the return of its
    content follow the specification: read fails with NotFound if no
    FileNode exists at the normalized path or its type is not text-like. *)
Definition read (st : FileSystemState) (path : string) : JS.completion string :=
  let path := normalizePath st path in
  let file := files st !! path in
  match file with
  | None => JS.Throw "ENOENT"
  | Some f =>
      match type f with
      | text => JS.Normal (content f)
      | blob => JS.Throw "ENOENT"
      end
  end.

(** The immediate child of the normalized directory [dir] on the way to the
    file path [p], when [p] lies strictly below [dir]. *)
Definition child_of (dir p : string) : option string :=
  let base := if String.eqb dir "/" then "/" else dir +:+ "/" in
  if JS.startsWith p base then
    match JS.split "/" (JS.slice (String.length base) p) with
    | seg :: _ => if JS.truthy seg then Some (base +:+ seg) else None
    | [] => None
    end
  else None.

(** Modelled from the spec: [list(dir)] of [lib/vfs.js], absent from the
    sources.  It normalizes [dir] and returns the lexicographically ordered
    set of distinct immediate children one path segment below [dir] (files
    and implied sub-paths), deduplicated.  ([list] is the type of lists
    here, hence the name.) *)
Definition listDir (st : FileSystemState) (dir : string) : list string :=
  let dir := normalizePath st dir in
  JS.sort (remove_dups
    (omap (fun kv => child_of dir (fst kv)) (map_to_list (files st)))).

(** Modelled from the spec: [historyPush(cmd)] of [lib/vfs.js], absent from
    the sources.  It appends to the bounded history buffer, evicting the
    oldest entry once the fixed [capacity] is exceeded. *)
Definition historyPush (capacity : nat) (st : FileSystemState) (cmd : string)
  : FileSystemState :=
  let h := history st ++ [cmd] in
  mkState (cwd st) (files st) (drop (length h - capacity) h).

(** Modelled from the spec: [chdir(path)] of [lib/vfs.js], absent from the
    sources.  It normalizes the target and succeeds for any path, whether or
    not it has descendants. *)
Definition chdir (st : FileSystemState) (path : string) : FileSystemState :=
  mkState (normalizePath st path) (files st) (history st).

End VFS.

(* ===================================================================== *)
(** * Persistent key-value store ([lib/storage.js]) *)
(* ===================================================================== *)

Module Storage.

Section Adapter.

(** Values that [JSON.parse] produces, [null] apart. *)
Variable Value : Type.

(** [JSON.parse]: [Normal None] is [null]; a [SyntaxError] is a [Throw]. *)
Variable JSON_parse : string -> JS.completion (option Value).

(** The adapter and the [localStorage] of the page. *)
Record StorageAdapter := mkAdapter {
  prefix : string;
  localStorage : gmap string string
}.

(** What a call returns and the messages it wrote to the log ([swat.log] or
    the console) on the way. *)
Record Reply := mkReply {
  returned : option Value;
  logged : list string
}.

(** [get(key)]:
<<
    try {
        const val = localStorage.getItem(this.prefix + key);
        return val ? JSON.parse(val) : null;
    } catch (e) {
        return null; // Error swallowed!
    }
>>
    [getItem] gives [null] for an absent key; neither branch logs. *)
Definition get (a : StorageAdapter) (key : string) : Reply :=
  let val := localStorage a !! (prefix a +:+ key) in
  match val with
  | Some v =>
      if JS.truthy v then
        match JSON_parse v with
        | JS.Normal parsed => mkReply parsed []
        | JS.Throw _ => mkReply None []
        end
      else mkReply None []
  | None => mkReply None []
  end.

End Adapter.

(** A [JSON.parse] that knows the literals [null], [true] and [false] only;
    any other text is a [SyntaxError].  It stands for [JSON.parse] in the
    examples. *)
Definition parse_literal (s : string) : JS.completion (option bool) :=
  if String.eqb s "null" then JS.Normal None
  else if String.eqb s "true" then JS.Normal (Some true)
  else if String.eqb s "false" then JS.Normal (Some false)
  else JS.Throw "Unexpected token".

End Storage.

(* ===================================================================== *)
(** * Command registry ([lib/registry.js]) *)
(* ===================================================================== *)

Module Registry.

Section Registry.

Variable Handler : Type.

(** Modelled from the spec: [register(name, handler)] of the
    [CommandRegistry] class of [lib/registry.js], absent from the sources.
    The registry maps names to handlers; registering a name again
    overwrites silently. *)
Definition register (name : string) (fn : Handler) (reg : gmap string Handler)
  : gmap string Handler :=
  <[name := fn]> reg.

(** Modelled from the spec: [get(name)] of [lib/registry.js], absent from
    the sources; it returns the handler or, for a name that was never
    registered, the Missing sentinel ([None]). *)
Definition get (reg : gmap string Handler) (name : string) : option Handler :=
  reg !! name.

(** Modelled from the spec: [list()] of [lib/registry.js], absent from the
    sources; it returns the registered names in sorted order. *)
Definition names (reg : gmap string Handler) : list string :=
  JS.sort (map fst (map_to_list reg)).

End Registry.

End Registry.

(* ===================================================================== *)
(** * Commands of the terminal ([apps/terminal/main.js]) *)
(* ===================================================================== *)

Module Commands.

(** The line feed ['\n']. *)
Definition nl : ascii := ascii_of_nat 10.
Definition LF : string := String nl EmptyString.

(** Each string followed by a line feed. *)
Definition unlines (l : list string) : string :=
  fold_right (fun s acc => s +:+ LF +:+ acc) "" l.

(** The object a handler returns: [{ stdout?, stderr?, exitCode? }]; a field
    left out is [None]. *)
Record HandlerResult := mkResult {
  stdout : option string;
  stderr : option string;
  exitCode : option Z
}.

(** [{ stdout: s }] and [{ stderr: s }] *)
Definition out (s : string) : HandlerResult := mkResult (Some s) None None.
Definition err (s : string) : HandlerResult := mkResult None (Some s) None.

(** What [safeFetch] resolves to:
    [{ ok, status, text, json, error }]. *)
Record FetchResponse := mkFetch {
  ok : bool;
  status : Z;
  body_text : string;
  error : option string
}.

(** The host of the page: the clock behind [Date.now()] and the network
    behind [safeFetch]. *)
Record Host := mkHost {
  now : Z;
  safeFetch : string -> FetchResponse
}.

(** The context a handler is called with ([vfs] is the state passed along;
    [commands] is what [registry.list()] returns). *)
Record Context := mkContext {
  args : list string;
  stdin : string;
  commands : list string
}.

Definition Handler : Type :=
  Context -> VFS.FileSystemState ->
  JS.completion HandlerResult * VFS.FileSystemState.

(** [args.includes('--help') || args.includes('-h')] *)
Definition help_requested (args : list string) : bool :=
  JS.arr_includes args "--help" || JS.arr_includes args "-h".

(** [arr.length ? '\n' : ''] *)
Definition nl_if_any (arr : list string) : string :=
  if (length arr =? 0)%nat then "" else LF.

Definition usage_echo : string :=
  unlines ["echo: print arguments to stdout"; "Usage: echo [options] [args...]";
           "Options:"; "  --help, -h  Show this help"].
Definition usage_pwd : string :=
  unlines ["pwd: print working directory"; "Usage: pwd [options]";
           "Options:"; "  --help, -h  Show this help"].
Definition usage_write : string :=
  unlines ["write: write content to file";
           "Usage: write [options] <path> <content>";
           "Options:"; "  --help, -h  Show this help"].
Definition usage_cat : string :=
  unlines ["cat: concatenate files or stdin"; "Usage: cat [options] [file]";
           "Options:"; "  --help, -h  Show this help"].
Definition usage_ls : string :=
  unlines ["ls: list directory contents"; "Usage: ls [options] [dir]";
           "Options:"; "  --help, -h  Show this help"].
Definition usage_history : string :=
  unlines ["history: show command history"; "Usage: history [options]";
           "Options:"; "  --help, -h  Show this help"].
Definition usage_curl : string :=
  unlines ["curl: fetch URL content"; "Usage: curl [options] <url>";
           "Options:"; "  --help, -h  Show this help"].
Definition usage_grep : string :=
  unlines ["grep: search for pattern in input";
           "Usage: grep [options] <pattern>";
           "Options:"; "  --help, -h  Show this help"].
Definition usage_help : string :=
  unlines ["help: show available commands"; "Usage: help [options] [command]";
           "Options:"; "  --help, -h  Show this help"].

(** [echo]: [return { stdout: args.join(' ') + '\n' }] *)
Definition echo : Handler := fun ctx st =>
  if help_requested (args ctx) then (JS.Normal (out usage_echo), st)
  else (JS.Normal (out (JS.join " " (args ctx) +:+ LF)), st).

(** [pwd]: [return { stdout: vfs.cwd() + '\n' }] *)
Definition pwd : Handler := fun ctx st =>
  if help_requested (args ctx) then (JS.Normal (out usage_pwd), st)
  else (JS.Normal (out (VFS.cwd st +:+ LF)), st).

(** [write]:
<<
    const path = args[0]; const content = args.slice(1).join(' ');
    await vfs.write(path, content); return { stdout: `Wrote ${path}\n` };
>>
    Without a path, [normalizePath] calls [startsWith] on [undefined] and
    the handler throws a [TypeError]. *)
Definition write (host : Host) : Handler := fun ctx st =>
  if help_requested (args ctx) then (JS.Normal (out usage_write), st)
  else
    let path := head (args ctx) in
    let content := JS.join " " (tail (args ctx)) in
    match path with
    | None =>
        (JS.Throw "Cannot read properties of undefined (reading 'startsWith')",
         st)
    | Some path =>
        (JS.Normal (out ("Wrote " +:+ path +:+ LF)),
         VFS.write (now host) st path content)
    end.

(** [cat]:
<<
    if (args.length === 0) { return { stdout: stdin }; }
    try { const txt = await vfs.read(args[0]); return { stdout: txt }; }
    catch(e) { return { stderr: `cat: ${args[0]}: No such file\n`, exitCode: 1 }; }
>> *)
Definition cat : Handler := fun ctx st =>
  if help_requested (args ctx) then (JS.Normal (out usage_cat), st)
  else
    match args ctx with
    | [] => (JS.Normal (out (stdin ctx)), st)
    | file :: _ =>
        match VFS.read st file with
        | JS.Normal txt => (JS.Normal (out txt), st)
        | JS.Throw _ =>
            (JS.Normal (mkResult None
                          (Some ("cat: " +:+ file +:+ ": No such file" +:+ LF))
                          (Some 1%Z)), st)
        end
    end.

(** [ls]:
<<
    const dir = args[0] || '/';
    const list = await vfs.list(dir);
    return { stdout: list.join('\n') + (list.length?'\n':'') };
>> *)
Definition ls : Handler := fun ctx st =>
  if help_requested (args ctx) then (JS.Normal (out usage_ls), st)
  else
    let dir := JS.or_else (head (args ctx)) "/" in
    let list := VFS.listDir st dir in
    (JS.Normal (out (JS.join LF list +:+ nl_if_any list)), st).

(** [history]: [return { stdout: (vfs.state.history || []).join('\n') + '\n' }] *)
Definition history : Handler := fun ctx st =>
  if help_requested (args ctx) then (JS.Normal (out usage_history), st)
  else (JS.Normal (out (JS.join LF (VFS.history st) +:+ LF)), st).

(** [curl]:
<<
    const url = args[0]; if (!url) return { stderr: 'curl: missing url\n' };
    const r = await safeFetch(url, { timeout: 8000 });
    if (!r.ok) return { stderr: `curl: failed: ${r.error||r.status}\n` };
    return { stdout: r.text };
>> *)
Definition curl (host : Host) : Handler := fun ctx st =>
  if help_requested (args ctx) then (JS.Normal (out usage_curl), st)
  else
    let url := head (args ctx) in
    if JS.falsy url then (JS.Normal (err ("curl: missing url" +:+ LF)), st)
    else
      let r := safeFetch host (JS.the url) in
      if negb (ok r) then
        (JS.Normal (err ("curl: failed: "
                         +:+ JS.or_else (error r) (pretty (status r)) +:+ LF)),
         st)
      else (JS.Normal (out (body_text r)), st).

(** [grep]:
<<
    const pattern = args[0];
    if (!pattern) return { stderr: 'grep: missing pattern\n' };
    const lines = stdin.split('\n').filter(l => l.trim());
    const matches = lines.filter(line => line.includes(pattern));
    return { stdout: matches.join('\n') + (matches.length ? '\n' : '') };
>> *)
Definition grep : Handler := fun ctx st =>
  if help_requested (args ctx) then (JS.Normal (out usage_grep), st)
  else
    let pattern := head (args ctx) in
    if JS.falsy pattern then
      (JS.Normal (err ("grep: missing pattern" +:+ LF)), st)
    else
      let pattern := JS.the pattern in
      let lines :=
        List.filter (fun l => JS.truthy (JS.trim l)) (JS.split nl (stdin ctx)) in
      let matches := List.filter (fun line => JS.includes line pattern) lines in
      (JS.Normal (out (JS.join LF matches +:+ nl_if_any matches)), st).

(** [help]:
<<
    const cmds = registry.list();
    return { stdout: 'Available commands:\n' + cmds.join('\n')
                     + '\nUse <command> --help for details.\n' };
>> *)
Definition help : Handler := fun ctx st =>
  if help_requested (args ctx) then (JS.Normal (out usage_help), st)
  else
    (JS.Normal (out ("Available commands:" +:+ LF
                     +:+ JS.join LF (commands ctx)
                     +:+ LF +:+ "Use <command> --help for details." +:+ LF)),
     st).

(** The commands the terminal registers, in the order of the source. *)
Inductive Builtin :=
| Echo | Pwd | Write | Cat | Ls | History | Curl | Grep | Help.

Definition builtins : list Builtin :=
  [Echo; Pwd; Write; Cat; Ls; History; Curl; Grep; Help].

Definition name_of (b : Builtin) : string :=
  match b with
  | Echo => "echo" | Pwd => "pwd" | Write => "write" | Cat => "cat"
  | Ls => "ls" | History => "history" | Curl => "curl" | Grep => "grep"
  | Help => "help"
  end.

Definition handler_of (host : Host) (b : Builtin) : Handler :=
  match b with
  | Echo => echo | Pwd => pwd | Write => write host | Cat => cat
  | Ls => ls | History => history | Curl => curl host | Grep => grep
  | Help => help
  end.

Definition usage_of (b : Builtin) : string :=
  match b with
  | Echo => usage_echo | Pwd => usage_pwd | Write => usage_write
  | Cat => usage_cat | Ls => usage_ls | History => usage_history
  | Curl => usage_curl | Grep => usage_grep | Help => usage_help
  end.

(** The registry after the [registry.register(...)] calls of the terminal. *)
Definition terminal_registry (host : Host) : gmap string Handler :=
  fold_left (fun reg b => Registry.register Handler (name_of b) (handler_of host b) reg)
            builtins ∅.

(** The claim about [grep], for the pattern [pattern] followed by the other
    arguments [rest]: stdout is made of exactly the lines of stdin that are
    not blank and contain the pattern, in their original order (joined by
    line feeds, with a final line feed when there is one at least). *)
Definition grep_keeps (pattern : string) (rest : list string) (stdin : string)
  : Prop :=
  forall (cmds : list string) (st : VFS.FileSystemState),
  exists matches,
    Spec.Kept (fun l => ~ Spec.Blank l /\ Spec.Substring pattern l)
              (JS.split nl stdin) matches /\
    grep (mkContext (pattern :: rest) stdin cmds) st
      = (JS.Normal (out (JS.join LF matches +:+ nl_if_any matches)), st).


End Commands.

(* ===================================================================== *)
(** * Pipeline executor ([lib/executor.js]) *)
(* ===================================================================== *)

Module Executor.

(** Modelled from the spec: the data model of [lib/executor.js], absent
    from the sources.  A [CommandResult] is [{stdout, stderr, exitCode}],
    the exit code an integer that defaults to 0; a [PipelineStage] is
    [{commandName, args, redirect}], the redirect being optional, of mode
    overwrite or append, and legal on the final stage only. *)
Record CommandResult := mkCommandResult {
  stdout : string;
  stderr : string;
  exitCode : Z
}.

Inductive RedirectMode := overwrite | append.

Record Redirect := mkRedirect {
  targetPath : string;
  mode : RedirectMode
}.

Record PipelineStage := mkStage {
  commandName : string;
  args : list string;
  redirect : option Redirect
}.

(** A token and whether it was written bare, that is with no character
    quoted or escaped. *)
Record Token := mkToken {
  text : string;
  bare : bool
}.

Record Lexer := mkLexer {
  out : list Token;
  cur : string;
  lit : bool;
  qi : option ascii;
  esc : bool
}.

Definition backslash : ascii := ascii_of_nat 92.
Definition dquote : ascii := ascii_of_nat 34.
Definition squote : ascii := ascii_of_nat 39.

Definition add (cur : string) (ch : ascii) : string :=
  cur +:+ String ch EmptyString.

(** Modelled from the spec: the lexer of [lib/executor.js], absent from the
    sources.  It tokenizes the line respecting single and double quotes
    (no splitting on white space while quoted) and backslash escaping (the
    next character is taken literally). *)
Definition lex_step (s : Lexer) (ch : ascii) : Lexer :=
  if esc s then mkLexer (out s) (add (cur s) ch) true (qi s) false
  else if Ascii.eqb ch backslash then
    mkLexer (out s) (cur s) (lit s) (qi s) true
  else
    match qi s with
    | Some q =>
        if Ascii.eqb ch q then mkLexer (out s) (cur s) true None false
        else mkLexer (out s) (add (cur s) ch) true (qi s) false
    | None =>
        if Ascii.eqb ch dquote || Ascii.eqb ch squote then
          mkLexer (out s) (cur s) true (Some ch) false
        else if JS.is_space ch then
          if JS.truthy (cur s) then
            mkLexer (out s ++ [mkToken (cur s) (negb (lit s))]) "" false None false
          else mkLexer (out s) "" false None false
        else mkLexer (out s) (add (cur s) ch) (lit s) None false
    end.

(** Modelled from the spec: an unterminated quote is a ParseError ([None]). *)
Definition lex (line : string) : option (list Token) :=
  let s := fold_left lex_step (list_ascii_of_string line)
                     (mkLexer [] "" false None false) in
  match qi s with
  | Some _ => None
  | None =>
      Some (if JS.truthy (cur s) then out s ++ [mkToken (cur s) (negb (lit s))]
            else out s)
  end.

Definition is_op (op : string) (t : Token) : bool :=
  bare t && String.eqb (text t) op.

Definition is_redirect_op (t : Token) : bool := is_op ">" t || is_op ">>" t.

(** Modelled from the spec: the token stream is split on unescaped,
    unquoted [|] into stages. *)
Fixpoint split_stages (toks : list Token) : list (list Token) :=
  match toks with
  | [] => [[]]
  | t :: rest =>
      if is_op "|" t then [] :: split_stages rest
      else match split_stages rest with
           | hd :: tl => (t :: hd) :: tl
           | [] => [[t]]
           end
  end.

(** Modelled from the spec: within the final stage a trailing unescaped,
    unquoted [>] (overwrite) or [>>] (append) followed by a target path
    token is stripped into the stage's redirect. *)
Definition strip_redirect (toks : list Token)
  : list Token * option Redirect :=
  match rev toks with
  | target :: op :: body =>
      if is_op ">" op then (rev body, Some (mkRedirect (text target) overwrite))
      else if is_op ">>" op then
        (rev body, Some (mkRedirect (text target) append))
      else (toks, None)
  | _ => (toks, None)
  end.

(** Modelled from the spec: a stage is a command name followed by its
    arguments; a stage without tokens is a malformed line. *)
Definition mk_stage (rd : option Redirect) (toks : list Token)
  : option PipelineStage :=
  match toks with
  | [] => None
  | name :: rest => Some (mkStage (text name) (map text rest) rd)
  end.

(** Modelled from the spec: parsing a line into stages; [None] is a
    ParseError (unterminated quote, a stage without a command, or a
    redirection attached anywhere but the final stage). *)
Definition parse (line : string) : option (list PipelineStage) :=
  match lex line with
  | None => None
  | Some toks =>
      let groups := split_stages toks in
      let front := removelast groups in
      let final := List.last groups [] in
      if existsb (existsb is_redirect_op) front then None
      else
        let '(body, rd) := strip_redirect final in
        match mapM (mk_stage None) front, mk_stage rd body with
        | Some stages, Some stage => Some (stages ++ [stage])
        | _, _ => None
        end
  end.

(** Modelled from the spec: the result of a stage.  The fields the handler
    left out take their defaults (exit code 0, empty strings); an exception
    that escapes the handler is converted into a fatal stage failure
    (stderr = message, exitCode 1). *)
Definition settle (c : JS.completion Commands.HandlerResult) : CommandResult :=
  match c with
  | JS.Normal r =>
      mkCommandResult (default "" (Commands.stdout r))
                      (default "" (Commands.stderr r))
                      (default 0%Z (Commands.exitCode r))
  | JS.Throw message => mkCommandResult "" message 1
  end.

(** Modelled from the spec: an unresolved name yields
    [{stderr: "<name>: command not found\n", exitCode: 127}]. *)
Definition not_found (name : string) : CommandResult :=
  mkCommandResult "" (name +:+ ": command not found" +:+ Commands.LF) 127.

(** Modelled from the spec: the final stdout is written into the VFS;
    overwrite replaces the file content, append concatenates to the existing
    content, creating the file if absent. *)
Definition apply_redirect (host : Commands.Host) (st : VFS.FileSystemState)
    (rd : Redirect) (output : string) : VFS.FileSystemState :=
  match mode rd with
  | overwrite => VFS.write (Commands.now host) st (targetPath rd) output
  | append =>
      let old := match VFS.read st (targetPath rd) with
                 | JS.Normal s => s
                 | JS.Throw _ => ""
                 end in
      VFS.write (Commands.now host) st (targetPath rd) (old +:+ output)
  end.

(** A run of the loop: the aggregated result, the filesystem state it
    leaves, and the names of the commands whose handlers were called, in
    order (kept to state which stages executed). *)
Record Run := mkRun {
  result : CommandResult;
  state : VFS.FileSystemState;
  executed : list string
}.

(** Modelled from the spec: the execution loop of [lib/executor.js], absent
    from the sources.  Stages run strictly left to right; each name is
    resolved in the registry and an unresolved name yields
    [{stderr: "<name>: command not found\n", exitCode: 127}] and aborts;
    any non-zero exit code stops the pipeline; on success the stdout of a
    stage is the stdin of the next; after the final stage a redirect writes
    the stdout into the VFS instead of surfacing it.  The overall stderr is
    that of the first failing stage. *)
Fixpoint runStages (host : Commands.Host) (reg : gmap string Commands.Handler)
    (stages : list PipelineStage) (stdin : string)
    (st : VFS.FileSystemState) (ran : list string) : Run :=
  match stages with
  | [] => mkRun (mkCommandResult stdin "" 0) st ran
  | s :: rest =>
      match Registry.get Commands.Handler reg (commandName s) with
      | None => mkRun (not_found (commandName s)) st ran
      | Some handler =>
          let '(c, st') :=
            handler (Commands.mkContext (args s) stdin
                       (Registry.names Commands.Handler reg)) st in
          let r := settle c in
          let ran' := ran ++ [commandName s] in
          if (exitCode r =? 0)%Z then
            match rest with
            | [] =>
                match redirect s with
                | None => mkRun (mkCommandResult (stdout r) "" 0) st' ran'
                | Some rd =>
                    mkRun (mkCommandResult "" "" 0)
                          (apply_redirect host st' rd (stdout r)) ran'
                end
            | _ :: _ => runStages host reg rest (stdout r) st' ran'
            end
          else mkRun r st' ran'
      end
  end.

(** Modelled from the spec: what [runLine] resolves to, a ParseError or the
    aggregated [CommandResult]. *)
Inductive Outcome :=
| ParseError
| Completed (r : CommandResult).

Record LineRun := mkLineRun {
  outcome : Outcome;
  final_state : VFS.FileSystemState;
  called : list string
}.

(** Modelled from the spec: [runLine(text)] of [lib/executor.js], absent
    from the sources.  A line that does not parse executes nothing; stage 0
    receives the empty stdin. *)
Definition runLine (host : Commands.Host) (reg : gmap string Commands.Handler)
    (line : string) (st : VFS.FileSystemState) : LineRun :=
  match parse line with
  | None => mkLineRun ParseError st []
  | Some stages =>
      let r := runStages host reg stages "" st [] in
      mkLineRun (Completed (result r)) (state r) (executed r)
  end.


End Executor.

(* ===================================================================== *)
(** * Terminal input ([apps/terminal/main.js]) *)
(* ===================================================================== *)

Module Terminal.

(** The variables of [shellSplit]: [out], [cur], [qi], [esc]. *)
Record Scan := mkScan {
  out : list string;
  cur : string;
  qi : option ascii;
  esc : bool
}.

(** The body of the [for] loop of [shellSplit]:
<<
    const ch = s[i];
    if (esc){ cur+=ch; esc=false; continue; }
    if (ch==='\\'){ esc=true; continue; }
    if (qi){ if (ch===qi) qi=null; else cur+=ch; }
    else { if (ch is a double quote || ch is a single quote){ qi=ch; }
           else if (/\s/.test(ch)){ if (cur!==''){ out.push(cur); cur=''; } }
           else cur+=ch; }
>> *)
Definition scan_step (s : Scan) (ch : ascii) : Scan :=
  if esc s then mkScan (out s) (Executor.add (cur s) ch) (qi s) false
  else if Ascii.eqb ch Executor.backslash then
    mkScan (out s) (cur s) (qi s) true
  else
    match qi s with
    | Some q =>
        if Ascii.eqb ch q then mkScan (out s) (cur s) None (esc s)
        else mkScan (out s) (Executor.add (cur s) ch) (qi s) (esc s)
    | None =>
        if Ascii.eqb ch Executor.dquote || Ascii.eqb ch Executor.squote then
          mkScan (out s) (cur s) (Some ch) (esc s)
        else if JS.is_space ch then
          if negb (String.eqb (cur s) "") then
            mkScan (JS.push (out s) (cur s)) "" (qi s) (esc s)
          else s
        else mkScan (out s) (Executor.add (cur s) ch) (qi s) (esc s)
    end.

(** [const out=[]; let cur='', qi=null, esc=false;] *)
Definition start : Scan := mkScan [] "" None false.

(** The variables after the loop has run over [s], from the values [t]. *)
Definition scan_from (t : Scan) (s : string) : Scan :=
  fold_left scan_step (list_ascii_of_string s) t.

(** The variables when the loop ends. *)
Definition scan (s : string) : Scan := scan_from start s.

(** [shellSplit(s)]: after the loop,
    [if (cur!=='') out.push(cur); return out;] *)
Definition shellSplit (s : string) : list string :=
  let r := scan s in
  if negb (String.eqb (cur r) "") then JS.push (out r) (cur r) else out r.

(** The line ends inside an open single or double quote. *)
Definition unterminated (s : string) : bool :=
  match qi (scan s) with
  | Some _ => true
  | None => false
  end.

(** The [keydown] listener on Enter, as far as the filesystem state goes
    (rendering into the page left out):
<<
    const line = input.value.trim(); input.value='';
    if (!line) { println(''); return; }
    vfs.historyPush(line);
    if (line.startsWith('cd ')) { vfs.chdir(line.slice(3).trim()||'/'); ...; return; }
    if (line === 'clear') { term.innerHTML=''; return; }
    const res = await executor.runLine(line);
>>
    [capacity] is the capacity of the history buffer of the VFS. *)
Definition onEnter (host : Commands.Host) (capacity : nat) (value : string)
    (st : VFS.FileSystemState) : VFS.FileSystemState :=
  let line := JS.trim value in
  if negb (JS.truthy line) then st
  else
    let st := VFS.historyPush capacity st line in
    if JS.startsWith line "cd " then
      VFS.chdir st (JS.or_else (Some (JS.trim (JS.slice 3 line))) "/")
    else if String.eqb line "clear" then st
    else
      Executor.final_state
        (Executor.runLine host (Commands.terminal_registry host) line st).

(** The line [echo] followed by [abc] with a double quote before it and
    none after. *)
Definition open_quote_line : string :=
  "echo " +:+ String Executor.dquote "abc".

End Terminal.

(* ===================================================================== *)
(** * The storage area of the page and its users
      ([lib/storage.js], [lib/utils.js]) *)
(* ===================================================================== *)

Module WebStorage.

Section Area.

(** Whether a storage area is within the quota of the browser. *)
Variable fits : gmap string string -> bool.

(** [localStorage.setItem(k, v)]: throws a [QuotaExceededError] when the
    area would exceed the quota, and then stores nothing. *)
Definition setItem (area : gmap string string) (k v : string)
  : JS.completion (gmap string string) :=
  let area' := <[k := v]> area in
  if fits area' then JS.Normal area' else JS.Throw "QuotaExceededError".

(** [localStorage.removeItem(k)] *)
Definition removeItem (area : gmap string string) (k : string)
  : gmap string string :=
  delete k area.

(** [localStorage.getItem(k)]: [null] for an absent key. *)
Definition getItem (area : gmap string string) (k : string) : option string :=
  area !! k.

(** [new StorageAdapter(opts)]: [this.prefix = opts.prefix || 'swat:'] *)
Definition newAdapter (opts_prefix : option string)
    (area : gmap string string) : Storage.StorageAdapter :=
  Storage.mkAdapter (JS.or_else opts_prefix "swat:") area.

(** Values that [JSON.stringify] takes, [null] apart. *)
Variable Value : Type.

(** [JSON.stringify]; it throws on what it cannot serialize. *)
Variable JSON_stringify : option Value -> JS.completion string.

(** [set(key, value)]:
<<
    try {
        localStorage.setItem(this.prefix + key, JSON.stringify(value));
    } catch (e) {
        throw new Error('Storage set failed'); // Generic error
    }
>> *)
Definition set (a : Storage.StorageAdapter) (key : string)
    (value : option Value) : JS.completion Storage.StorageAdapter :=
  match JSON_stringify value with
  | JS.Throw _ => JS.Throw "Storage set failed"
  | JS.Normal text =>
      match setItem (Storage.localStorage a) (Storage.prefix a +:+ key) text with
      | JS.Throw _ => JS.Throw "Storage set failed"
      | JS.Normal area => JS.Normal (Storage.mkAdapter (Storage.prefix a) area)
      end
  end.

(** [authStub()] of [lib/utils.js]:
<<
    login: (token) => localStorage.setItem('auth_token', token),
    logout: () => localStorage.removeItem('auth_token'),
    getToken: () => localStorage.getItem('auth_token'),
    isLoggedIn: () => !!localStorage.getItem('auth_token')
>> *)
Definition login (area : gmap string string) (token : string)
  : JS.completion (gmap string string) :=
  setItem area "auth_token" token.

Definition logout (area : gmap string string) : gmap string string :=
  removeItem area "auth_token".

Definition getToken (area : gmap string string) : option string :=
  getItem area "auth_token".

Definition isLoggedIn (area : gmap string string) : bool :=
  negb (JS.falsy (getItem area "auth_token")).

End Area.

(** The inverse of [Storage.parse_literal], standing for [JSON.stringify] in
    the examples. *)
Definition stringify_literal (v : option bool) : JS.completion string :=
  match v with
  | None => JS.Normal "null"
  | Some true => JS.Normal "true"
  | Some false => JS.Normal "false"
  end.

End WebStorage.

(* ===================================================================== *)
(** * Helpers of the standard library ([lib/stdlib.js]) *)
(* ===================================================================== *)

Module Stdlib.

(** [csvParse(text)]:
<<
    const lines = text.split('\n').filter(l => l.trim());
    return lines.map(line => line.split(',').map(cell => cell.trim()));
>> *)
Definition csvParse (text : string) : list (list string) :=
  let lines :=
    List.filter (fun l => JS.truthy (JS.trim l)) (JS.split Commands.nl text) in
  map (fun line => map (fun cell => JS.trim cell) (JS.split "," line)) lines.

(** The number of occurrences of [c] in [s]. *)
Fixpoint count_char (c : ascii) (s : string) : nat :=
  match s with
  | EmptyString => 0
  | String d rest => (if Ascii.eqb d c then 1 else 0) + count_char c rest
  end.

(** A string without white space at either end. *)
Definition Trimmed (s : string) : Prop :=
  (forall c rest, s = String c rest -> JS.is_space c = false) /\
  (forall front c, s = front +:+ String c "" -> JS.is_space c = false).

(** What [fetch] resolves to, as far as [safeFetch] reads it: [res.ok],
    [res.status] and the outcome of [res.text()]. *)
Record Response := mkResponse {
  res_ok : bool;
  res_status : Z;
  res_text : JS.completion string
}.

Section Fetch.

(** What [JSON.parse] produces. *)
Variable Json : Type.

(** The network: [fetch(url, opts)] resolves to a response or rejects. *)
Variable fetch : string -> JS.completion Response.

Variable JSON_parse : string -> JS.completion Json.

(** The object [safeFetch] resolves to. *)
Record FetchResult := mkFetchResult {
  ok : bool;
  status : Z;
  text : string;
  json : option Json;
  error : option string
}.

(** [safeFetch(url, opts)]:
<<
    try {
        const res = await fetch(url, opts);
        const text = await res.text();
        return { ok: res.ok, status: res.status, text,
                 json: res.ok ? JSON.parse(text) : null, error: null };
    } catch (e) {
        return { ok: false, status: 0, text: '', json: null, error: e.message };
    }
>> *)
Definition safeFetch (url : string) : FetchResult :=
  let caught message := mkFetchResult false 0 "" None (Some message) in
  match fetch url with
  | JS.Throw message => caught message
  | JS.Normal res =>
      match res_text res with
      | JS.Throw message => caught message
      | JS.Normal text =>
          if res_ok res then
            match JSON_parse text with
            | JS.Throw message => caught message
            | JS.Normal parsed =>
                mkFetchResult (res_ok res) (res_status res) text (Some parsed) None
            end
          else mkFetchResult (res_ok res) (res_status res) text None None
      end
  end.

(** The fields of the result that [curl] reads. *)
Definition as_seen_by_curl (r : FetchResult) : Commands.FetchResponse :=
  Commands.mkFetch (ok r) (status r) (text r) (error r).

(** A host whose [safeFetch] is the one above. *)
Definition host (now : Z) : Commands.Host :=
  Commands.mkHost now (fun url => as_seen_by_curl (safeFetch url)).

End Fetch.

(** A network in which every request is answered with the response
    given. *)
Definition serving (res : Response) : string -> JS.completion Response :=
  fun _ => JS.Normal res.

End Stdlib.

(* ===================================================================== *)
(** * History navigation and start-up of the terminal
      ([apps/terminal/main.js]) *)
(* ===================================================================== *)

Module Prompt.

(** [historyIndex] and [input.value]. *)
Record Prompt := mkPrompt {
  historyIndex : Z;
  value : string
}.

(** The prompt after Enter: [historyIndex = -1] and an empty input. *)
Definition fresh : Prompt := mkPrompt (-1) "".

(** [h[historyIndex] || ''] *)
Definition entry (h : list string) (i : Z) : string :=
  if (i <? 0)%Z then "" else JS.or_else (h !! Z.to_nat i) "".

(** ArrowUp, with [h] the value of [vfs.state.history || []]:
<<
    if (!h.length) return;
    if (historyIndex === -1) historyIndex = h.length - 1;
    else historyIndex = Math.max(0, historyIndex - 1);
    input.value = h[historyIndex] || '';
>> *)
Definition onArrowUp (h : list string) (p : Prompt) : Prompt :=
  if (length h =? 0)%nat then p
  else
    let i := if (historyIndex p =? -1)%Z then (Z.of_nat (length h) - 1)%Z
             else Z.max 0 (historyIndex p - 1) in
    mkPrompt i (entry h i).

(** ArrowDown:
<<
    if (!h.length) return;
    if (historyIndex === -1) return;
    historyIndex = Math.min(h.length - 1, historyIndex + 1);
    if (historyIndex === h.length - 1) input.value = '';
    else input.value = h[historyIndex] || '';
>> *)
Definition onArrowDown (h : list string) (p : Prompt) : Prompt :=
  if (length h =? 0)%nat then p
  else if (historyIndex p =? -1)%Z then p
  else
    let i := Z.min (Z.of_nat (length h) - 1) (historyIndex p + 1) in
    mkPrompt i (if (i =? Z.of_nat (length h) - 1)%Z then "" else entry h i).

(** The index is [-1] or points into the history. *)
Definition in_range (h : list string) (p : Prompt) : Prop :=
  historyIndex p = (-1)%Z \/
  (0 <= historyIndex p < Z.of_nat (length h))%Z.

(** [bootstrap], with the two readings of [Date.now()]:
<<
    if (!Object.keys(vfs.state.files || {}).length) {
      await vfs.write('/hello.txt', 'Hello from SWAT terminal\nLine two\nLine three\n');
      await vfs.write('/notes/todo.txt', 'buy milk\ncall mom\n');
    }
>> *)
Definition bootstrap (now1 now2 : Z) (st : VFS.FileSystemState)
  : VFS.FileSystemState :=
  if (size (VFS.files st) =? 0)%nat then
    let st := VFS.write now1 st "/hello.txt"
                (Commands.unlines ["Hello from SWAT terminal"; "Line two";
                                   "Line three"]) in
    VFS.write now2 st "/notes/todo.txt"
      (Commands.unlines ["buy milk"; "call mom"])
  else st.

End Prompt.

(* ===================================================================== *)
(** * Words of a command line *)
(* ===================================================================== *)

Module Words.

(** A character that [shellSplit] copies into the current token as it is:
    no white space, no quote, no backslash. *)
Definition plain_char (c : ascii) : bool :=
  negb (JS.is_space c) && negb (Ascii.eqb c Executor.backslash)
  && negb (Ascii.eqb c Executor.dquote) && negb (Ascii.eqb c Executor.squote).

(** A string of plain characters. *)
Definition plain (w : string) : Prop :=
  Forall (fun c => plain_char c = true) (list_ascii_of_string w).

(** A non-empty word of plain characters. *)
Definition plain_word (w : string) : Prop := w <> "" /\ plain w.

(** The string does not hold the character [q] nor a backslash. *)
Definition quotable (q : ascii) (body : string) : Prop :=
  Forall (fun c => Ascii.eqb c q = false /\ Ascii.eqb c Executor.backslash = false)
         (list_ascii_of_string body).

(** The stdout of a handler's result, as the next stage of a pipe reads it
    ([''] when the field is left out or the handler threw). *)
Definition piped (r : JS.completion Commands.HandlerResult * VFS.FileSystemState)
  : string :=
  match fst r with
  | JS.Normal result => default "" (Commands.stdout result)
  | JS.Throw _ => ""
  end.

(** The lines that [grep] keeps: not blank and holding the pattern. *)
Definition kept_by (pattern : string) (lines : list string) : list string :=
  List.filter (fun l => JS.truthy (JS.trim l) && JS.includes l pattern) lines.

(** Lines as [grep] and [ls] print them:
    [lines.join('\n') + (lines.length ? '\n' : '')]. *)
Definition printed (lines : list string) : string :=
  JS.join Commands.LF lines +:+ Commands.nl_if_any lines.

End Words.

(* ===================================================================== *)
(** * Properties *)
(* ===================================================================== *)

Module JSFacts.
Import JS.

Lemma append_nil_l (s : string) : "" +:+ s = s.
Proof. reflexivity. Qed.

Lemma append_cons (c : ascii) (s t : string) :
  String c s +:+ t = String c (s +:+ t).
Proof. reflexivity. Qed.

Lemma append_nil_r (s : string) : s +:+ "" = s.
Proof.
  induction s as [|c s IH]; [reflexivity|]. now rewrite append_cons, IH.
Qed.

Lemma append_assoc (a b c : string) : (a +:+ b) +:+ c = a +:+ (b +:+ c).
Proof.
  induction a as [|x a IH]; [reflexivity|]. now rewrite !append_cons, IH.
Qed.

Lemma split_not_nil sep s : split sep s <> [].
Proof.
  destruct s as [|c s]; simpl; [discriminate|].
  destruct (Ascii.eqb c sep); [discriminate|].
  destruct (split sep s); discriminate.
Qed.

(** Splitting distributes over a separator in the middle. *)
Lemma split_app_sep sep a b :
  split sep (a +:+ String sep b) = split sep a ++ split sep b.
Proof.
  induction a as [|c a IH]; [rewrite append_nil_l | rewrite append_cons]; simpl.
  - now rewrite Ascii.eqb_refl.
  - destruct (Ascii.eqb c sep); [now rewrite IH|].
    rewrite IH. pose proof (split_not_nil sep a) as Hne.
    destruct (split sep a); [congruence | reflexivity].
Qed.

Lemma split_sepfree sep s : sepfree sep s = true -> split sep s = [s].
Proof.
  induction s as [|c s IH]; simpl; [reflexivity|].
  intros [Hc Hs]%andb_prop. apply negb_true_iff in Hc. rewrite Hc.
  now rewrite (IH Hs).
Qed.

(** [join] then [split] gives back a non-empty array of separator-free
    strings. *)
Lemma split_join sep (l : list string) :
  l <> [] -> Forall (fun s => sepfree sep s = true) l ->
  split sep (join (String sep "") l) = l.
Proof.
  induction l as [|x l IH]; [congruence|]. intros _ Hall.
  inversion Hall as [|? ? Hx Hl]; subst.
  destruct l as [|y l]; [now apply split_sepfree|].
  change (join (String sep "") (x :: y :: l))
    with (x +:+ String sep (join (String sep "") (y :: l))).
  rewrite split_app_sep, (split_sepfree _ _ Hx), IH; [reflexivity | discriminate | exact Hl].
Qed.

Lemma split_all_sepfree sep s : Forall (fun p => sepfree sep p = true) (split sep s).
Proof.
  induction s as [|c s IH]; simpl; [repeat constructor|].
  destruct (Ascii.eqb c sep) eqn:E; [constructor; [reflexivity | exact IH]|].
  destruct (split sep s) as [|hd tl]; [repeat constructor; simpl; now rewrite E|].
  inversion IH; subst. constructor; [simpl; rewrite E; assumption | assumption].
Qed.

Lemma join_app sep (l1 l2 : list string) :
  l1 <> [] -> l2 <> [] ->
  join sep (l1 ++ l2) = join sep l1 +:+ sep +:+ join sep l2.
Proof.
  intros H1 H2. induction l1 as [|x l1 IH]; [congruence|].
  destruct l1 as [|y l1].
  - destruct l2; [congruence | reflexivity].
  - change (join sep ((x :: y :: l1) ++ l2))
      with (x +:+ sep +:+ join sep ((y :: l1) ++ l2)).
    rewrite IH by discriminate.
    change (join sep (x :: y :: l1)) with (x +:+ sep +:+ join sep (y :: l1)).
    now rewrite !append_assoc.
Qed.

End JSFacts.

Module VFSFacts.
Import JS JSFacts VFS.

Lemma normalizePath_segments st path :
  normalizePath st path = "/" +:+ join "/" (segments st path).
Proof. reflexivity. Qed.

Lemma pop_Forall {A} (P : A -> Prop) (l : list A) :
  Forall P l -> Forall P (pop l).
Proof.
  unfold pop. induction 1 as [|x l Hx Hl IH]; [constructor|].
  destruct l as [|y l]; [constructor|]. simpl in *. constructor; assumption.
Qed.

Lemma fold_step_ok (ps stack : list string) :
  Forall (fun p => keep_part p = true /\ sepfree "/" p = true) ps ->
  Forall seg_ok stack -> Forall seg_ok (fold_left step ps stack).
Proof.
  revert stack. induction ps as [|p ps IH]; intros stack Hps Hst; [exact Hst|].
  inversion Hps as [|? ? [Hk Hs] Hps']; subst. simpl. apply IH; [exact Hps'|].
  unfold step. destruct (String.eqb p "..") eqn:E.
  - now apply pop_Forall.
  - unfold push. apply Forall_app. split; [exact Hst|].
    constructor; [repeat split; assumption | constructor].
Qed.

Lemma parts_ok (path : string) :
  Forall (fun p => keep_part p = true /\ sepfree "/" p = true)
         (List.filter keep_part (split "/" path)).
Proof.
  apply List.Forall_forall. intros p [Hin Hk]%filter_In. split; [exact Hk|].
  pose proof (split_all_sepfree "/" path) as H.
  rewrite List.Forall_forall in H. now apply H.
Qed.

Lemma segments_ok st path : Forall seg_ok (segments st path).
Proof. unfold segments. apply fold_step_ok; [apply parts_ok | constructor]. Qed.

(** Without [..] the loop only pushes. *)
Lemma fold_step_push (ps stack : list string) :
  Forall seg_ok ps -> fold_left step ps stack = stack ++ ps.
Proof.
  revert stack. induction ps as [|p ps IH]; intros stack Hps; simpl.
  - now rewrite app_nil_r.
  - inversion Hps as [|? ? (_ & Hdd & _) Hps']; subst.
    rewrite IH by assumption. unfold step. rewrite Hdd. unfold push.
    now rewrite <- app_assoc.
Qed.

Lemma filter_keep_ok (l : list string) :
  Forall seg_ok l -> List.filter keep_part l = l.
Proof.
  induction 1 as [|x l (Hk & _) _ IH]; [reflexivity|].
  simpl. now rewrite Hk, IH.
Qed.

(** [n] segments [..] pop [n] times, stopping silently at the empty stack. *)
Lemma fold_step_dotdots (n : nat) (stack : list string) :
  length (fold_left step (dotdots n) stack) = length stack - n.
Proof.
  revert stack. induction n as [|n IH]; intros stack; simpl; [lia|].
  rewrite IH. unfold step. simpl. unfold pop.
  rewrite removelast_firstn_len, length_take. lia.
Qed.

Lemma fold_step_dotdots_nil (n : nat) (stack : list string) :
  length stack <= n -> fold_left step (dotdots n) stack = [].
Proof.
  intros H. apply length_zero_iff_nil. rewrite fold_step_dotdots. lia.
Qed.

Lemma parts_dotdots (n : nat) :
  List.filter keep_part (split "/" (join "/" (dotdots n))) = dotdots n.
Proof.
  destruct n as [|n]; [reflexivity|].
  rewrite split_join.
  - generalize (S n). intros m. unfold dotdots.
    induction m as [|m IH]; [reflexivity|]. simpl. now rewrite IH.
  - discriminate.
  - apply List.Forall_forall. intros x Hx. apply repeat_spec in Hx. now subst.
Qed.

Lemma parts_app (a b : string) :
  List.filter keep_part (split "/" (a +:+ "/" +:+ b)) =
  List.filter keep_part (split "/" a) ++ List.filter keep_part (split "/" b).
Proof.
  change ("/" +:+ b) with (String "/" b).
  now rewrite split_app_sep, List.filter_app.
Qed.

Lemma startsWith_app (p q : string) :
  p <> "" -> startsWith (p +:+ q) "/" = startsWith p "/".
Proof.
  destruct p as [|c p]; [congruence|]. intros _.
  rewrite append_cons. reflexivity.
Qed.

(** Appending [n] segments [..] to a non-empty path pops the stack of that
    path [n] times. *)
Lemma segments_app_dotdots st (p : string) (n : nat) :
  p <> "" ->
  segments st (p +:+ "/" +:+ join "/" (dotdots n)) =
  fold_left step (dotdots n) (segments st p).
Proof.
  intros Hp. unfold segments. rewrite (startsWith_app _ _ Hp).
  destruct (negb (startsWith p "/")).
  - replace (cwd st +:+ "/" +:+ p +:+ "/" +:+ join "/" (dotdots n))
      with ((cwd st +:+ "/" +:+ p) +:+ "/" +:+ join "/" (dotdots n))
      by now rewrite !append_assoc.
    rewrite parts_app, fold_left_app, parts_dotdots. reflexivity.
  - rewrite parts_app, fold_left_app, parts_dotdots. reflexivity.
Qed.

Lemma segments_dotdots st (n : nat) :
  segments st (join "/" (dotdots (S n))) =
  fold_left step (dotdots (S n)) (segments st "").
Proof.
  unfold segments.
  assert (Hrel : startsWith (join "/" (dotdots (S n))) "/" = false)
    by (destruct n; reflexivity).
  rewrite Hrel. change (startsWith "" "/") with false. cbn [negb].
  rewrite !parts_app, fold_left_app, parts_dotdots.
  change (List.filter keep_part (split "/" "")) with (@nil string).
  now rewrite app_nil_r.
Qed.

Lemma segments_root_dotdots st (n : nat) :
  segments st ("/" +:+ join "/" (dotdots n)) = [].
Proof.
  unfold segments. change (startsWith ("/" +:+ join "/" (dotdots n)) "/") with true.
  cbn [negb]. change ("/" +:+ join "/" (dotdots n)) with ("" +:+ "/" +:+ join "/" (dotdots n)).
  rewrite parts_app, fold_left_app, parts_dotdots.
  apply fold_step_dotdots_nil. simpl. lia.
Qed.

(** The cases the specification singles out. *)
Example normalize_cases :
  normalizePath (mkState "/" ∅ []) "./a" = "/a" /\
  normalizePath (mkState "/" ∅ []) "../../a" = "/a" /\
  normalizePath (mkState "/x/y" ∅ []) "a/../../b" = "/x/b" /\
  normalizePath (mkState "/x" ∅ []) "a//b///c/" = "/x/a/b/c" /\
  normalizePath (mkState "/x" ∅ []) "../../../etc/passwd" = "/etc/passwd" /\
  normalizePath (mkState "/x/y" ∅ []) "" = "/x/y".
Proof. repeat split. Qed.

(** C2. [normalizePath] is a total function (a [pop] on the empty stack is a
    silent no-op, nothing raises), and it clamps at the root: when a path
    ends in [n] segments [..] and [n] is at least the depth reached by the
    segments [pre] before them, the path normalizes to exactly ["/"].  With
    [pre] empty the path consists of [..] segments only and the depth is
    that of the working directory. *)
Theorem normalize_dotdot_root_clamp (st : FileSystemState)
    (pre : list string) (n : nat) :
  depth st (join "/" pre) <= n ->
  normalizePath st (join "/" (pre ++ dotdots n)) = "/".
Proof.
  intros Hd. rewrite normalizePath_segments.
  enough (segments st (join "/" (pre ++ dotdots n)) = []) as -> by reflexivity.
  unfold depth in Hd. destruct n as [|n].
  - unfold dotdots. simpl. rewrite app_nil_r.
    apply length_zero_iff_nil. lia.
  - destruct pre as [|x pre].
    + rewrite app_nil_l, segments_dotdots. now apply fold_step_dotdots_nil.
    + rewrite join_app by discriminate.
      destruct (String.eqb_spec (join "/" (x :: pre)) "") as [He|Hne].
      * rewrite He. apply segments_root_dotdots.
      * rewrite segments_app_dotdots by exact Hne.
        now apply fold_step_dotdots_nil.
Qed.

Lemma normalize_dotdot_root_clamp_witness :
  let st := mkState "/a/b" ∅ [] in
  depth st (join "/" []) <= 3 /\ normalizePath st "../../.." = "/".
Proof.
  intros st. split; [vm_compute; lia|].
  apply (normalize_dotdot_root_clamp st [] 3). vm_compute. lia.
Defined.

(** Re-normalizing a normalized stack changes nothing. *)
Lemma segments_of_normalized st (stack : list string) :
  Forall seg_ok stack -> segments st ("/" +:+ join "/" stack) = stack.
Proof.
  intros Hok. unfold segments.
  change (startsWith ("/" +:+ join "/" stack) "/") with true. cbn [negb].
  change ("/" +:+ join "/" stack) with ("" +:+ "/" +:+ join "/" stack).
  rewrite parts_app. change (List.filter keep_part (split "/" "")) with (@nil string).
  rewrite app_nil_l. destruct stack as [|x stack]; [reflexivity|].
  rewrite split_join.
  - rewrite (filter_keep_ok _ Hok). now rewrite fold_step_push.
  - discriminate.
  - eapply Forall_impl; [exact Hok|]. now intros s (_ & _ & Hs).
Qed.

(** For a normalized working directory the depth is its number of
    segments. *)
Lemma depth_cwd st (segs : list string) :
  Forall seg_ok segs -> cwd st = "/" +:+ join "/" segs ->
  depth st "" = length segs.
Proof.
  intros Hok Hcwd. unfold depth, segments.
  change (startsWith "" "/") with false. cbn [negb].
  rewrite parts_app.
  change (List.filter keep_part (split "/" "")) with (@nil string).
  rewrite app_nil_r.
  pose proof (segments_of_normalized st segs Hok) as H.
  unfold segments in H.
  change (startsWith ("/" +:+ join "/" segs) "/") with true in H.
  cbn [negb] in H. now rewrite Hcwd, H.
Qed.

(** C6. [normalizePath] is idempotent, for every path and every working
    directory. *)
Theorem normalize_idempotent (st : FileSystemState) (p : string) :
  normalizePath st (normalizePath st p) = normalizePath st p.
Proof.
  rewrite (normalizePath_segments st p).
  rewrite normalizePath_segments.
  now rewrite (segments_of_normalized st _ (segments_ok st p)).
Qed.

End VFSFacts.

Module StringFacts.
Import JS JSFacts Spec.

Lemma Blank_nil : Blank "".
Proof. intros c []. Qed.

Lemma Blank_cons c s : Blank (String c s) <-> is_space c = true /\ Blank s.
Proof.
  unfold Blank. simpl. split.
  - intros H. split; [apply H; now left | intros d Hd; apply H; now right].
  - intros [Hc Hs] d [<- | Hd]; [exact Hc | now apply Hs].
Qed.

Lemma trimStart_empty s : trimStart s = "" <-> Blank s.
Proof.
  induction s as [|c s IH]; simpl.
  - split; [intros _; apply Blank_nil | reflexivity].
  - rewrite Blank_cons. destruct (is_space c).
    + rewrite IH. tauto.
    + split; [discriminate | intros [? _]; discriminate].
Qed.

Lemma trimStart_Blank s : Blank (trimStart s) <-> Blank s.
Proof.
  induction s as [|c s IH]; simpl; [tauto|].
  destruct (is_space c) eqn:E; [|tauto].
  rewrite IH, Blank_cons. tauto.
Qed.

Lemma trimEnd_empty s : trimEnd s = "" <-> Blank s.
Proof.
  induction s as [|c s IH]; simpl.
  - split; [intros _; apply Blank_nil | reflexivity].
  - rewrite Blank_cons. destruct (trimEnd s) as [|d r].
    + destruct (is_space c).
      * split; [intros _; split; [reflexivity | now apply IH] | reflexivity].
      * split; [discriminate | intros [? _]; discriminate].
    + split; [discriminate|]. intros [_ Hs]. apply IH in Hs. discriminate.
Qed.

(** [l.trim()] is falsy exactly for blank lines. *)
Lemma trim_truthy s : truthy (trim s) = true <-> ~ Blank s.
Proof.
  unfold truthy, trim. rewrite negb_true_iff.
  rewrite <- trimStart_Blank, <- trimEnd_empty.
  destruct (String.eqb_spec (trimEnd (trimStart s)) ""); split; congruence.
Qed.

Lemma startsWith_spec s p : startsWith s p = true <-> exists post, s = p +:+ post.
Proof.
  revert s. induction p as [|a p IH]; intros s; simpl.
  - split; [intros _; now exists s | reflexivity].
  - destruct s as [|b s].
    + split; [discriminate | intros [post H]; discriminate].
    + rewrite andb_true_iff, IH. split.
      * intros [Hab [post ->]]. apply Ascii.eqb_eq in Hab. subst. now exists post.
      * intros [post H]. rewrite append_cons in H. injection H as -> ->.
        split; [apply Ascii.eqb_refl | now exists post].
Qed.

(** [line.includes(pattern)] is the substring relation. *)
Lemma includes_spec s pat : includes s pat = true <-> Substring pat s.
Proof.
  unfold Substring. induction s as [|c s IH]; simpl.
  - rewrite orb_false_r, startsWith_spec. split.
    + intros [post H]. now exists "", post.
    + intros (pre & post & H). destruct pre as [|x pre]; [now exists post|].
      rewrite append_cons in H. discriminate.
  - rewrite orb_true_iff, startsWith_spec, IH. split.
    + intros [[post H] | (pre & post & H)].
      * now exists "", post.
      * exists (String c pre), post. now rewrite append_cons, H.
    + intros (pre & post & H). destruct pre as [|x pre].
      * left. now exists post.
      * right. rewrite append_cons in H. injection H as -> ->. now exists pre, post.
Qed.

Lemma filter_Kept {A} (P : A -> Prop) (f : A -> bool) (l : list A) :
  (forall x, f x = true <-> P x) -> Kept P l (List.filter f l).
Proof.
  intros Hf. induction l as [|x l IH]; simpl; [constructor|].
  destruct (f x) eqn:E.
  - apply Kept_keep; [now apply Hf | exact IH].
  - apply Kept_drop; [|exact IH]. rewrite <- Hf. congruence.
Qed.

Lemma Kept_unique {A} (P : A -> Prop) (l k1 k2 : list A) :
  Kept P l k1 -> Kept P l k2 -> k1 = k2.
Proof.
  intros H1. revert k2. induction H1; intros k2 H2; inversion H2; subst;
    try reflexivity; try contradiction; [f_equal|]; now apply IHKept.
Qed.

Lemma filter_filter {A} (f g : A -> bool) (l : list A) :
  List.filter g (List.filter f l) = List.filter (fun x => f x && g x) l.
Proof.
  induction l as [|x l IH]; simpl; [reflexivity|].
  destruct (f x); simpl; [destruct (g x); now rewrite IH | exact IH].
Qed.

Lemma arr_includes_In (arr : list string) (x : string) :
  arr_includes arr x = true <-> In x arr.
Proof.
  unfold arr_includes. rewrite existsb_exists. split.
  - intros (y & Hy & E). apply String.eqb_eq in E. now subst.
  - intros H. exists x. split; [exact H | apply String.eqb_refl].
Qed.

End StringFacts.

Module VFSOpsFacts.
Import VFS.

Lemma normalizePath_write now st path content p :
  normalizePath (write now st path content) p = normalizePath st p.
Proof. reflexivity. Qed.

(** C3. After [write(path, content)], [read(path)] on the same VFS returns
    exactly [content], for every path and every content, the empty string
    included. *)
Theorem write_then_read (now : Z) (st : FileSystemState) (path content : string) :
  read (write now st path content) path = JS.Normal content.
Proof.
  unfold read. rewrite normalizePath_write.
  unfold write. cbn [files]. now rewrite lookup_insert_eq.
Qed.

Lemma sort_insert_In (x y : string) (l : list string) :
  In y (JS.sort_insert x l) <-> y = x \/ In y l.
Proof.
  induction l as [|z l IH]; simpl; [intuition|].
  destruct (String.leb x z); simpl; [intuition|]. rewrite IH. intuition.
Qed.

Lemma sort_In (y : string) (l : list string) : In y (JS.sort l) <-> In y l.
Proof.
  induction l as [|x l IH]; simpl; [tauto|].
  rewrite sort_insert_In, IH. intuition.
Qed.

(** The children that [listDir] reports are the immediate children of the
    normalized directory on the way to some stored file. *)
Lemma listDir_spec st (dir child : string) :
  In child (listDir st dir) <->
  exists p node, files st !! p = Some node /\
                 child_of (normalizePath st dir) p = Some child.
Proof.
  unfold listDir. rewrite sort_In, <- list_elem_of_In, elem_of_remove_dups.
  rewrite list_elem_of_omap. split.
  - intros ([p node] & Hin & Hc). apply elem_of_map_to_list in Hin.
    now exists p, node.
  - intros (p & node & Hl & Hc). exists (p, node).
    split; [now apply elem_of_map_to_list | exact Hc].
Qed.

End VFSOpsFacts.

Module StorageFacts.
Import Storage.

Lemma get_never_logs (Value : Type) parse (a : StorageAdapter) (key : string) :
  logged Value (get Value parse a key) = [].
Proof.
  unfold get. destruct (localStorage a !! _) as [v|]; [|reflexivity].
  destruct (JS.truthy v); [|reflexivity]. now destruct (parse v).
Qed.

Lemma get_parse_failure (Value : Type) parse (a : StorageAdapter)
    (key raw message : string) :
  localStorage a !! (prefix a +:+ key) = Some raw ->
  parse raw = JS.Throw message ->
  get Value parse a key = mkReply Value None [].
Proof.
  intros Hraw Hparse. unfold get. rewrite Hraw.
  destruct (JS.truthy raw); [now rewrite Hparse | reflexivity].
Qed.

Lemma get_absent (Value : Type) parse (a : StorageAdapter) (key : string) :
  localStorage a !! (prefix a +:+ key) = None ->
  get Value parse a key = mkReply Value None [].
Proof. intros H. unfold get. now rewrite H. Qed.

(** C5. With the text [{oops] stored under the key, which does not
    deserialize, [get] returns [null] and writes nothing to the log: the
    reply is the one for a key that was never set. *)
Theorem get_swallows_parse_failure :
  let a := mkAdapter "swat:" {[ "swat:cfg" := "{oops" ]} in
  parse_literal "{oops" = JS.Throw "Unexpected token" /\
  get bool parse_literal a "cfg" = mkReply bool None [] /\
  get bool parse_literal a "never-set" = mkReply bool None [].
Proof. vm_compute. repeat split. Qed.

End StorageFacts.

Module CommandsFacts.
Import JS Spec StringFacts Commands.

Lemma help_requested_true (args : list string) :
  help_requested args = true <-> In "--help" args \/ In "-h" args.
Proof.
  unfold help_requested. now rewrite orb_true_iff, !arr_includes_In.
Qed.

(** C7. Every built-in command, for every argument list that has [--help]
    or [-h] anywhere in it, returns its fixed usage string on stdout and
    does nothing else: no stderr, no exit code, the filesystem untouched. *)
Theorem help_flag_short_circuits (host : Host) (b : Builtin)
    (ctx : Context) (st : VFS.FileSystemState) :
  In "--help" (args ctx) \/ In "-h" (args ctx) ->
  Registry.get Handler (terminal_registry host) (name_of b)
    = Some (handler_of host b) /\
  handler_of host b ctx st = (Normal (out (usage_of b)), st).
Proof.
  intros H. apply help_requested_true in H. split.
  - destruct b; reflexivity.
  - destruct b; cbn [handler_of usage_of];
      unfold echo, pwd, write, cat, ls, history, curl, grep, help;
      now rewrite H.
Qed.

Lemma help_flag_short_circuits_witness :
  let host := mkHost 0 (fun _ => mkFetch false 0 "" None) in
  let ctx := mkContext ["/notes"; "-h"] "" [] in
  let st := VFS.mkState "/" ∅ [] in
  (In "--help" (args ctx) \/ In "-h" (args ctx)) /\
  ls ctx st = (Normal (out usage_ls), st).
Proof.
  intros host ctx st.
  assert (H : In "--help" (args ctx) \/ In "-h" (args ctx))
    by (right; simpl; tauto).
  split; [exact H|].
  exact (proj2 (help_flag_short_circuits host Ls ctx st H)).
Defined.

(** C8, as amended. For every stdin and every non-empty pattern, unless
    [--help] or [-h] is among the arguments, [grep] keeps exactly the
    non-blank lines that contain the pattern, in their original order. *)
Theorem grep_keeps_matching_lines (pattern : string) (rest : list string)
    (stdin : string) :
  pattern <> "" ->
  help_requested (pattern :: rest) = false ->
  grep_keeps pattern rest stdin.
Proof.
  intros Hne Hhelp cmds st.
  exists (List.filter (fun l => truthy (trim l) && includes l pattern)
                      (split nl stdin)).
  split.
  - apply filter_Kept. intros l.
    now rewrite andb_true_iff, trim_truthy, includes_spec.
  - unfold grep. cbn [args Commands.stdin]. rewrite Hhelp. cbn [head falsy the default].
    assert (Ht : truthy pattern = true).
    { unfold truthy. now destruct (String.eqb_spec pattern ""). }
    rewrite Ht. cbn [negb]. now rewrite filter_filter.
Qed.

Lemma grep_keeps_matching_lines_witness :
  "two" <> "" /\ help_requested ["two"] = false /\
  grep_keeps "two" [] ("one two" +:+ LF).
Proof.
  assert (H1 : "two" <> "") by discriminate.
  assert (H2 : help_requested ["two"] = false) by reflexivity.
  exact (conj H1 (conj H2 (grep_keeps_matching_lines "two" [] _ H1 H2))).
Defined.

(** C8, counterexample. The pattern [-h] is not empty and the line [a-hb]
    contains it, yet [grep -h] prints its usage string. *)
Lemma grep_help_pattern_counterexample :
  "-h" <> "" /\ Substring "-h" "a-hb" /\
  grep (mkContext ["-h"] "a-hb" []) (VFS.mkState "/" ∅ [])
    = (Normal (out usage_grep), VFS.mkState "/" ∅ []) /\
  ~ grep_keeps "-h" [] "a-hb".
Proof.
  split; [discriminate|]. split; [now exists "a", "b"|]. split; [reflexivity|].
  intros H. destruct (H [] (VFS.mkState "/" ∅ [])) as (matches & Hk & Hg).
  assert (Hm : matches = ["a-hb"] \/ matches = []).
  { change (split nl "a-hb") with ["a-hb"] in Hk.
    inversion Hk as [|? ? k _ Hk'|? ? k _ Hk']; subst;
      inversion Hk'; subst; tauto. }
  destruct Hm as [-> | ->]; vm_compute in Hg; discriminate.
Qed.

(** C9. Called without a pattern, [grep] returns only a stderr message, and
    so does [curl] called without a url: the exit code is left out and
    defaults to 0. *)
Theorem missing_argument_exits_zero (host : Host) (stdin : string)
    (cmds : list string) (st : VFS.FileSystemState) :
  let g := fst (grep (mkContext [] stdin cmds) st) in
  let c := fst (curl host (mkContext [] stdin cmds) st) in
  g = Normal (mkResult None (Some ("grep: missing pattern" +:+ LF)) None) /\
  c = Normal (mkResult None (Some ("curl: missing url" +:+ LF)) None) /\
  Executor.stderr (Executor.settle g) <> "" /\
  Executor.stderr (Executor.settle c) <> "" /\
  Executor.exitCode (Executor.settle g) = 0%Z /\
  Executor.exitCode (Executor.settle c) = 0%Z.
Proof. repeat split; discriminate. Qed.

Lemma nl_if_any_spec (arr : list string) :
  nl_if_any arr = match arr with [] => "" | _ :: _ => LF end.
Proof. now destruct arr. Qed.

(** What [ls] prints when no help is asked for. *)
Lemma ls_lists (ctx : Context) (st : VFS.FileSystemState) :
  help_requested (args ctx) = false ->
  ls ctx st =
  (let list := VFS.listDir st (or_else (head (args ctx)) "/") in
   (Normal (out (join LF list +:+ nl_if_any list)), st)).
Proof. intros H. unfold ls. now rewrite H. Qed.

Lemma absolute_not_help (dir : string) :
  startsWith dir "/" = true ->
  help_requested [dir] = false /\ truthy dir = true.
Proof.
  destruct dir as [|c dir]; [discriminate|]. cbn [startsWith].
  intros [Hc _]%andb_prop. apply Ascii.eqb_eq in Hc. subst c.
  split; reflexivity.
Qed.

(** C10. For every directory, given by its absolute path: when it has at
    least one child the stdout of [ls] is the child list joined by line
    feeds and followed by a line feed; when it has none the stdout is
    exactly the empty string. *)
Theorem ls_stdout_trailing_newline (st : VFS.FileSystemState) (dir : string)
    (input : string) (cmds : list string) :
  startsWith dir "/" = true ->
  let children := VFS.listDir st dir in
  let r := ls (mkContext [dir] input cmds) st in
  (children <> [] -> r = (Normal (out (join LF children +:+ LF)), st)) /\
  (children = [] -> r = (Normal (out ""), st)).
Proof.
  intros Habs children r. destruct (absolute_not_help dir Habs) as [Hh Ht].
  assert (Hr : r = (Normal (out (join LF children +:+ nl_if_any children)), st)).
  { unfold r. rewrite ls_lists by exact Hh.
    cbn [args head or_else]. now rewrite Ht. }
  rewrite Hr, nl_if_any_spec. split.
  - intros Hne. destruct children; [congruence | reflexivity].
  - intros ->. reflexivity.
Qed.

Lemma ls_stdout_trailing_newline_witness :
  let st := VFS.write 7 (VFS.write 5 (VFS.mkState "/" ∅ []) "/notes/todo.txt" "x")
                      "/notes/done.txt" "y" in
  startsWith "/notes" "/" = true /\
  ls (mkContext ["/notes"] "" []) st
    = (Normal (out ("/notes/done.txt" +:+ LF +:+ "/notes/todo.txt" +:+ LF)), st) /\
  ls (mkContext ["/empty"] "" []) st = (Normal (out ""), st).
Proof.
  intros st.
  assert (H1 : startsWith "/notes" "/" = true) by reflexivity.
  assert (H2 : startsWith "/empty" "/" = true) by reflexivity.
  split; [exact H1|]. split.
  - apply (proj1 (ls_stdout_trailing_newline st "/notes" "" [] H1)).
    vm_compute. discriminate.
  - apply (proj2 (ls_stdout_trailing_newline st "/empty" "" [] H2)).
    vm_compute. reflexivity.
Defined.

End CommandsFacts.

Module ExecutorFacts.
Import Executor.

Section Pipeline.

Variable host : Commands.Host.
Variable reg : gmap string Commands.Handler.





End Pipeline.






End ExecutorFacts.

Module TerminalFacts.
Import JS JSFacts Spec StringFacts Terminal.

Lemma chars_app (a b : string) :
  list_ascii_of_string (a +:+ b)
  = list_ascii_of_string a ++ list_ascii_of_string b.
Proof.
  induction a as [|c a IH]; [reflexivity|].
  rewrite append_cons. simpl. now rewrite IH.
Qed.

Lemma scan_from_app (t : Scan) (a b : string) :
  scan_from t (a +:+ b) = scan_from (scan_from t a) b.
Proof. unfold scan_from. now rewrite chars_app, fold_left_app. Qed.

Lemma space_not_special (c : ascii) :
  is_space c = true ->
  Ascii.eqb c Executor.backslash = false /\
  Ascii.eqb c Executor.dquote = false /\
  Ascii.eqb c Executor.squote = false.
Proof.
  intros H. repeat split.
  - destruct (Ascii.eqb_spec c Executor.backslash); [subst; discriminate | reflexivity].
  - destruct (Ascii.eqb_spec c Executor.dquote); [subst; discriminate | reflexivity].
  - destruct (Ascii.eqb_spec c Executor.squote); [subst; discriminate | reflexivity].
Qed.

(** White space before the first token leaves the variables as they start. *)
Lemma scan_step_start_space (c : ascii) :
  is_space c = true -> scan_step start c = start.
Proof.
  intros H. destruct (space_not_special c H) as (Hb & Hd & Hs).
  unfold scan_step, start. cbn [esc qi cur out].
  now rewrite Hb, Hd, Hs, H.
Qed.

Lemma scan_trimStart (s : string) : scan (trimStart s) = scan s.
Proof.
  induction s as [|c s IH]; [reflexivity|]. simpl.
  destruct (is_space c) eqn:E; [|reflexivity].
  rewrite IH. unfold scan, scan_from. cbn [list_ascii_of_string fold_left].
  now rewrite (scan_step_start_space c E).
Qed.

(** White space never opens a quote. *)
Lemma scan_step_space_qi (t : Scan) (c : ascii) (q : ascii) :
  is_space c = true -> qi (scan_step t c) = Some q -> qi t = Some q.
Proof.
  intros H. destruct (space_not_special c H) as (Hb & Hd & Hs).
  unfold scan_step. rewrite Hb, Hd, Hs, H. cbn [orb].
  destruct (esc t); [now cbn|].
  destruct (qi t) as [q0|] eqn:Eq.
  - destruct (Ascii.eqb c q0); cbn; [discriminate | trivial].
  - destruct (negb (String.eqb (cur t) "")); cbn; try rewrite Eq; discriminate.
Qed.

Lemma scan_from_blank_qi (w : string) (t : Scan) (q : ascii) :
  Blank w -> qi (scan_from t w) = Some q -> qi t = Some q.
Proof.
  revert t. induction w as [|c w IH]; intros t Hw; [now cbn|].
  apply Blank_cons in Hw as [Hc Hw]. unfold scan_from. simpl.
  intros H. apply (scan_step_space_qi t c q Hc).
  exact (IH _ Hw H).
Qed.

Lemma trimEnd_split (s : string) : exists w, Blank w /\ s = trimEnd s +:+ w.
Proof.
  induction s as [|c s (w & Hw & IH)]; [exists ""; split; [apply Blank_nil | reflexivity]|].
  simpl. destruct (trimEnd s) as [|d r] eqn:E.
  - rewrite append_nil_l in IH. subst s. destruct (is_space c) eqn:Ec.
    + exists (String c w). split; [now apply Blank_cons | reflexivity].
    + exists w. split; [exact Hw | reflexivity].
  - exists w. split; [exact Hw|]. rewrite append_cons. now f_equal.
Qed.

Lemma scan_eq (s : string) : scan s = scan_from start s.
Proof. reflexivity. Qed.

(** Trimming keeps an open quote open. *)
Lemma unterminated_trim (s : string) :
  unterminated s = true -> unterminated (trim s) = true.
Proof.
  unfold unterminated, trim. rewrite <- (scan_trimStart s).
  destruct (trimEnd_split (trimStart s)) as (w & Hw & Hs).
  remember (trimStart s) as u eqn:Hu. clear Hu.
  destruct (qi (scan u)) as [q|] eqn:E; [intros _ | discriminate].
  rewrite Hs, scan_eq, scan_from_app in E.
  apply scan_from_blank_qi in E; [|exact Hw].
  now rewrite scan_eq, E.
Qed.

(** [qi] only ever holds a quote character. *)
Lemma scan_step_qi_quote (t : Scan) (c q : ascii) :
  (forall q0, qi t = Some q0 -> q0 = Executor.dquote \/ q0 = Executor.squote) ->
  qi (scan_step t c) = Some q -> q = Executor.dquote \/ q = Executor.squote.
Proof.
  intros Ht. unfold scan_step.
  destruct (esc t); [cbn; apply Ht|].
  destruct (Ascii.eqb c Executor.backslash); [cbn; apply Ht|].
  destruct (qi t) as [q0|] eqn:Eq.
  - destruct (Ascii.eqb c q0); cbn; [discriminate | apply Ht].
  - destruct (Ascii.eqb_spec c Executor.dquote) as [->|Hd]; cbn [orb].
    + cbn. intros [= <-]. now left.
    + destruct (Ascii.eqb_spec c Executor.squote) as [->|Hs].
      * cbn. intros [= <-]. now right.
      * destruct (is_space c); [destruct (negb _)|]; cbn; try rewrite Eq; discriminate.
Qed.

Lemma scan_qi_quote (s : string) (q : ascii) :
  qi (scan s) = Some q -> q = Executor.dquote \/ q = Executor.squote.
Proof.
  unfold scan. generalize dependent q.
  assert (H : forall l t,
    (forall q0, qi t = Some q0 -> q0 = Executor.dquote \/ q0 = Executor.squote) ->
    forall q, qi (fold_left scan_step l t) = Some q ->
              q = Executor.dquote \/ q = Executor.squote).
  { induction l as [|c l IH]; intros t Ht q; [apply Ht|].
    simpl. apply IH. intros q0. now apply scan_step_qi_quote. }
  apply H. cbn. discriminate.
Qed.

(** A quote left open lexes as if it were closed at the end of the line. *)
Lemma shellSplit_open_quote (s : string) (q : ascii) :
  qi (scan s) = Some q -> esc (scan s) = false ->
  shellSplit (s +:+ String q "") = shellSplit s.
Proof.
  intros Hq He. unfold shellSplit.
  assert (Hs : scan (s +:+ String q "")
               = mkScan (out (scan s)) (cur (scan s)) None false).
  { rewrite scan_eq, scan_from_app, <- scan_eq.
    change (scan_from (scan s) (String q "")) with (scan_step (scan s) q).
    unfold scan_step. rewrite He, Hq, Ascii.eqb_refl.
    destruct (scan_qi_quote s q Hq) as [-> | ->]; reflexivity. }
  now rewrite Hs.
Qed.

(** The lexer of the executor and [shellSplit] follow quotes and escapes in
    the same way. *)
Lemma lex_step_scan_step (s : Executor.Lexer) (t : Scan) (c : ascii) :
  Executor.qi s = qi t -> Executor.esc s = esc t ->
  Executor.qi (Executor.lex_step s c) = qi (scan_step t c) /\
  Executor.esc (Executor.lex_step s c) = esc (scan_step t c).
Proof.
  intros Hq He. unfold Executor.lex_step, scan_step. rewrite Hq, He.
  destruct (esc t) eqn:Ee; [now cbn|].
  destruct (Ascii.eqb c Executor.backslash); [now cbn|].
  destruct (qi t) as [q|] eqn:Eq.
  - destruct (Ascii.eqb c q); now cbn.
  - destruct (Ascii.eqb c Executor.dquote || Ascii.eqb c Executor.squote);
      [now cbn|].
    destruct (is_space c); [|now cbn].
    destruct (truthy (Executor.cur s));
      destruct (negb (String.eqb (cur t) "")); cbn; now rewrite ?Eq, ?Ee.
Qed.

Lemma lex_unterminated (line : string) :
  unterminated line = true -> Executor.lex line = None.
Proof.
  unfold unterminated, Executor.lex, scan.
  assert (H : forall l s t,
    Executor.qi s = qi t -> Executor.esc s = esc t ->
    Executor.qi (fold_left Executor.lex_step l s)
      = qi (fold_left scan_step l t)).
  { induction l as [|c l IH]; intros s t Hq He; [exact Hq|].
    simpl. destruct (lex_step_scan_step s t c Hq He). now apply IH. }
  rewrite (H _ _ (mkScan [] "" None false)) by reflexivity.
  now destruct (qi _).
Qed.

Lemma runLine_unterminated host reg (line : string) st :
  unterminated line = true ->
  Executor.runLine host reg line st
    = Executor.mkLineRun Executor.ParseError st [].
Proof.
  intros H. unfold Executor.runLine, Executor.parse.
  now rewrite (lex_unterminated line H).
Qed.

Lemma historyPush_last (capacity : nat) st (cmd : string) :
  0 < capacity ->
  List.last (VFS.history (VFS.historyPush capacity st cmd)) "" = cmd.
Proof.
  intros Hc. unfold VFS.historyPush. cbn [VFS.history].
  rewrite length_app. cbn [length].
  rewrite drop_app_le by lia. apply last_last.
Qed.

(** In the terminal the Enter handler pushes the trimmed line to the
    history before it hands it to [runLine]: a line that ends inside an
    open quote leaves the files as they were and is the newest history
    entry afterwards (for a capacity of at least 1). *)
Lemma enter_records_history (host : Commands.Host) (capacity : nat)
    (value : string) (st : VFS.FileSystemState) :
  unterminated value = true ->
  0 < capacity ->
  let st' := onEnter host capacity value st in
  VFS.files st' = VFS.files st /\
  List.last (VFS.history st') "" = trim value /\
  trim value <> "".
Proof.
  intros Hu Hc. apply unterminated_trim in Hu.
  assert (Hne : trim value <> "").
  { intros E. rewrite E in Hu. discriminate. }
  assert (Ht : truthy (trim value) = true).
  { unfold truthy. now destruct (String.eqb_spec (trim value) ""). }
  cbv zeta. unfold onEnter. rewrite Ht. cbn [negb].
  destruct (startsWith (trim value) "cd ").
  - cbn [VFS.chdir VFS.files VFS.history]. repeat split; [|exact Hne].
    now apply historyPush_last.
  - destruct (String.eqb (trim value) "clear").
    + repeat split; [|exact Hne]. now apply historyPush_last.
    + rewrite (runLine_unterminated _ _ _ _ Hu). cbn [Executor.final_state].
      repeat split; [|exact Hne]. now apply historyPush_last.
Qed.



End TerminalFacts.

(* ===================================================================== *)
(** * Further properties of the code *)
(* ===================================================================== *)

Module PathFacts.
Import JS JSFacts VFS VFSFacts.

(** The segments of [d/p] are those of [d] followed through the parts of
    [p]. *)
Lemma segments_app st (d p : string) :
  d <> "" ->
  segments st (d +:+ "/" +:+ p)
  = fold_left step (List.filter keep_part (split "/" p)) (segments st d).
Proof.
  intros Hd. unfold segments. rewrite (startsWith_app _ _ Hd).
  destruct (negb (startsWith d "/")).
  - replace (cwd st +:+ "/" +:+ d +:+ "/" +:+ p)
      with ((cwd st +:+ "/" +:+ d) +:+ "/" +:+ p)
      by now rewrite !append_assoc.
    now rewrite parts_app, fold_left_app.
  - now rewrite parts_app, fold_left_app.
Qed.

Lemma normalizePath_of_segments st (p q : string) :
  segments st p = segments st q -> normalizePath st p = normalizePath st q.
Proof. intros H. now rewrite !normalizePath_segments, H. Qed.

Lemma parts_seg (seg : string) :
  seg_ok seg -> List.filter keep_part (split "/" seg) = [seg].
Proof.
  intros (Hk & _ & Hs). rewrite (split_sepfree _ _ Hs). simpl. now rewrite Hk.
Qed.

(** X1. The result of [normalizePath] is always in normal form: a slash
    followed by segments joined by single slashes, none of them empty, [.]
    or [..], and none holding a slash; so it starts with a slash and is
    ["/"] exactly when no segment is left. *)
Theorem normalizePath_normal_form (st : FileSystemState) (p : string) :
  exists segs,
    Forall seg_ok segs /\
    normalizePath st p = "/" +:+ join "/" segs /\
    (normalizePath st p = "/" <-> segs = []).
Proof.
  exists (segments st p). split; [apply segments_ok|]. split; [reflexivity|].
  rewrite normalizePath_segments. split.
  - intros H. pose proof (segments_ok st p) as Hok.
    destruct (segments st p) as [|x l]; [reflexivity|].
    inversion Hok as [|? ? (Hk & _) _]; subst.
    exfalso. destruct x as [|c x]; [discriminate|].
    destruct l; discriminate.
  - intros ->. reflexivity.
Qed.

(** X2. Resolution composes with a change of directory: a relative path [p]
    resolved from the working directory [normalizePath d] is [d/p] resolved
    from the original working directory. *)
Theorem normalizePath_after_cd (st st' : FileSystemState) (d p : string) :
  d <> "" ->
  startsWith p "/" = false ->
  cwd st' = normalizePath st d ->
  normalizePath st' p = normalizePath st (d +:+ "/" +:+ p).
Proof.
  intros Hd Hp Hcwd. rewrite !normalizePath_segments. f_equal. f_equal.
  rewrite (segments_app st d p Hd).
  unfold segments at 1. rewrite Hp. cbn [negb].
  rewrite parts_app, fold_left_app. f_equal.
  rewrite Hcwd, normalizePath_segments.
  pose proof (segments_of_normalized st (segments st d) (segments_ok st d)) as H.
  unfold segments at 1 in H.
  change (startsWith ("/" +:+ join "/" (segments st d)) "/") with true in H.
  exact H.
Qed.

Lemma normalizePath_after_cd_witness :
  let st := mkState "/home" ∅ [] in
  let st' := mkState "/home/docs" ∅ [] in
  "docs/../docs" <> "" /\ startsWith "../a.txt" "/" = false /\
  cwd st' = normalizePath st "docs/../docs" /\
  normalizePath st' "../a.txt" = "/home/a.txt".
Proof.
  intros st st'.
  assert (H1 : "docs/../docs" <> "") by discriminate.
  assert (H2 : startsWith "../a.txt" "/" = false) by reflexivity.
  assert (H3 : cwd st' = normalizePath st "docs/../docs") by reflexivity.
  split; [exact H1|]. split; [exact H2|]. split; [exact H3|].
  rewrite (normalizePath_after_cd st st' _ _ H1 H2 H3). reflexivity.
Defined.

(** X3. After a non-empty prefix, a trailing slash, a doubled slash and a
    [.] segment change nothing. *)
Theorem normalizePath_ignores_redundancy (st : FileSystemState) (a b : string) :
  a <> "" ->
  normalizePath st (a +:+ "/") = normalizePath st a /\
  normalizePath st (a +:+ "//" +:+ b) = normalizePath st (a +:+ "/" +:+ b) /\
  normalizePath st (a +:+ "/./" +:+ b) = normalizePath st (a +:+ "/" +:+ b).
Proof.
  intros Ha. repeat split; apply normalizePath_of_segments.
  - replace (a +:+ "/") with (a +:+ "/" +:+ "") by reflexivity.
    now rewrite segments_app.
  - change (a +:+ "//" +:+ b) with (a +:+ "/" +:+ ("" +:+ "/" +:+ b)).
    rewrite !segments_app by exact Ha. now rewrite parts_app.
  - change (a +:+ "/./" +:+ b) with (a +:+ "/" +:+ ("." +:+ "/" +:+ b)).
    rewrite !segments_app by exact Ha. now rewrite parts_app.
Qed.

Lemma normalizePath_ignores_redundancy_witness :
  let st := mkState "/" ∅ [] in
  "/notes" <> "" /\
  normalizePath st "/notes/" = "/notes" /\
  normalizePath st "/notes//todo.txt" = "/notes/todo.txt" /\
  normalizePath st "/notes/./todo.txt" = "/notes/todo.txt".
Proof.
  intros st. assert (H : "/notes" <> "") by discriminate.
  split; [exact H|].
  destruct (normalizePath_ignores_redundancy st "/notes" "todo.txt" H)
    as (H1 & H2 & H3).
  split; [exact H1|]. split; [exact H2 | exact H3].
Defined.

(** X4. Going down into a segment and up again cancels: after a non-empty
    prefix [a], the path [a/seg/..] resolves like [a]. *)
Theorem normalizePath_child_then_parent (st : FileSystemState) (a seg : string) :
  a <> "" -> seg_ok seg ->
  normalizePath st (a +:+ "/" +:+ seg +:+ "/..") = normalizePath st a.
Proof.
  intros Ha Hseg. apply normalizePath_of_segments.
  change (seg +:+ "/..") with (seg +:+ "/" +:+ "..").
  rewrite segments_app by exact Ha.
  rewrite parts_app, (parts_seg seg Hseg).
  change (List.filter keep_part (split "/" "..")) with [".."].
  destruct Hseg as (_ & Hdd & _).
  cbn [app fold_left]. unfold step at 2. rewrite Hdd.
  unfold step. cbn [String.eqb Ascii.eqb]. unfold pop, push.
  simpl. apply removelast_last.
Qed.

Lemma normalizePath_child_then_parent_witness :
  let st := mkState "/home" ∅ [] in
  "docs" <> "" /\ seg_ok "tmp" /\
  normalizePath st "docs/tmp/.." = "/home/docs".
Proof.
  intros st.
  assert (H1 : "docs" <> "") by discriminate.
  assert (H2 : seg_ok "tmp") by (repeat split).
  split; [exact H1|]. split; [exact H2|].
  exact (normalizePath_child_then_parent st "docs" "tmp" H1 H2).
Defined.

(** X5. Writing is overwriting, also through an alias: after two writes to
    paths that normalize to the same path the state is that of the second
    write alone. *)
Theorem write_overwrites (now1 now2 : Z) (st : FileSystemState)
    (p q c1 c2 : string) :
  normalizePath st p = normalizePath st q ->
  write now2 (write now1 st p c1) q c2 = write now2 st q c2.
Proof.
  intros H. unfold write. cbn [cwd files history].
  change (normalizePath (mkState (cwd st) _ (history st)) q)
    with (normalizePath st q).
  rewrite H. now rewrite insert_insert_eq.
Qed.

Lemma write_overwrites_witness :
  let st := mkState "/notes" ∅ [] in
  normalizePath st "todo.txt" = normalizePath st "/notes/./todo.txt" /\
  write 2 (write 1 st "todo.txt" "old") "/notes/./todo.txt" "new"
    = write 2 st "/notes/./todo.txt" "new".
Proof.
  intros st.
  assert (H : normalizePath st "todo.txt" = normalizePath st "/notes/./todo.txt")
    by reflexivity.
  split; [exact H|]. exact (write_overwrites 1 2 st _ _ "old" "new" H).
Defined.



End PathFacts.

Module WebStorageFacts.
Import JS JSFacts Storage WebStorage.

Lemma append_inj_l (pre a b : string) : pre +:+ a = pre +:+ b -> a = b.
Proof.
  induction pre as [|c pre IH]; [now rewrite !append_nil_l|].
  rewrite !append_cons. intros [= H]. now apply IH.
Qed.

Lemma truthy_ne (s : string) : s <> "" -> truthy s = true.
Proof. intros H. unfold truthy. now destruct (String.eqb_spec s ""). Qed.

Lemma get_at (Value : Type) parse (a : StorageAdapter) (key : string) :
  get Value parse a key
  = match localStorage a !! (prefix a +:+ key) with
    | Some v =>
        if truthy v then
          match parse v with
          | Normal parsed => mkReply Value parsed []
          | Throw _ => mkReply Value None []
          end
        else mkReply Value None []
    | None => mkReply Value None []
    end.
Proof. reflexivity. Qed.

(** X7. [set] and [get] round-trip: when [set(key, v)] succeeds, and the
    text [JSON.stringify] gives for [v] is not empty and parses back to [v],
    then [get(key)] returns [v]; what [get] returns for every other key is
    unchanged. *)
Theorem set_then_get (fits : gmap string string -> bool) (Value : Type)
    (stringify : option Value -> completion string)
    (parse : string -> completion (option Value))
    (a a' : StorageAdapter) (key text : string) (v : option Value) :
  stringify v = Normal text ->
  text <> "" ->
  parse text = Normal v ->
  set fits Value stringify a key v = Normal a' ->
  get Value parse a' key = mkReply Value v [] /\
  (forall other, other <> key ->
     get Value parse a' other = get Value parse a other).
Proof.
  intros Hs Hne Hp Hset. unfold set, setItem in Hset. rewrite Hs in Hset.
  destruct (fits _); [|discriminate]. injection Hset as <-.
  split.
  - rewrite get_at. cbn [localStorage prefix].
    rewrite lookup_insert_eq, (truthy_ne _ Hne), Hp. reflexivity.
  - intros other Ho. rewrite !get_at. cbn [localStorage prefix].
    rewrite lookup_insert_ne; [reflexivity|].
    intros E. apply append_inj_l in E. congruence.
Qed.

Lemma set_then_get_witness :
  let a := newAdapter (Some "test:") ∅ in
  let a' := mkAdapter "test:" {[ "test:k" := "true" ]} in
  stringify_literal (Some true) = Normal "true" /\ "true" <> "" /\
  parse_literal "true" = Normal (Some true) /\
  set (fun _ => true) bool stringify_literal a "k" (Some true) = Normal a' /\
  get bool parse_literal a' "k" = mkReply bool (Some true) [].
Proof.
  intros a a'.
  assert (H1 : stringify_literal (Some true) = Normal "true") by reflexivity.
  assert (H2 : "true" <> "") by discriminate.
  assert (H3 : parse_literal "true" = Normal (Some true)) by reflexivity.
  assert (H4 : set (fun _ => true) bool stringify_literal a "k" (Some true)
               = Normal a') by (vm_compute; reflexivity).
  repeat (split; [assumption|]).
  exact (proj1 (set_then_get _ bool _ _ a a' "k" "true" _ H1 H2 H3 H4)).
Defined.

(** X8. After a successful [login(token)], [getToken] returns the token;
    [isLoggedIn] is true exactly when the token is not the empty string;
    after [logout] there is no token and nobody is logged in. *)
Theorem login_then_token (fits : gmap string string -> bool)
    (area area' : gmap string string) (token : string) :
  login fits area token = Normal area' ->
  getToken area' = Some token /\
  isLoggedIn area' = truthy token /\
  getToken (logout area') = None /\
  isLoggedIn (logout area') = false.
Proof.
  unfold login, setItem. destruct (fits _); [|discriminate].
  intros [= <-]. unfold getToken, isLoggedIn, logout, getItem, removeItem.
  rewrite lookup_insert_eq, lookup_delete_eq. cbn [falsy].
  now rewrite negb_involutive.
Qed.

Lemma login_then_token_witness :
  let area' : gmap string string := {[ "auth_token" := "" ]} in
  login (fun _ => true) ∅ "" = Normal area' /\
  getToken area' = Some "" /\ isLoggedIn area' = false.
Proof.
  intros area'.
  assert (H : login (fun _ => true) ∅ "" = Normal area')
    by (vm_compute; reflexivity).
  split; [exact H|].
  destruct (login_then_token _ _ _ _ H) as (H1 & H2 & _).
  split; [exact H1 | exact H2].
Defined.

(** X9. Under the default prefix [swat:] the adapter and [authStub] keep
    out of each other's way: [login] and [logout] change nothing that [get]
    returns, and a successful [set] leaves the token as it was. *)
Theorem default_prefix_isolated (fits : gmap string string -> bool)
    (Value : Type) (stringify : option Value -> completion string)
    (parse : string -> completion (option Value))
    (area area' : gmap string string) (token key key' : string)
    (v : option Value) (a' : StorageAdapter) :
  login fits area token = Normal area' ->
  set fits Value stringify (newAdapter None area) key v = Normal a' ->
  get Value parse (newAdapter None area') key'
    = get Value parse (newAdapter None area) key' /\
  get Value parse (newAdapter None (logout area)) key'
    = get Value parse (newAdapter None area) key' /\
  getToken (localStorage a') = getToken area.
Proof.
  intros Hl Hs.
  assert (Hk : forall k, "swat:" +:+ k <> "auth_token") by (intros k; discriminate).
  unfold login, setItem in Hl. destruct (fits (<["auth_token":=_]> _));
    [|discriminate]. injection Hl as <-.
  unfold set, setItem in Hs. destruct (stringify v) as [text|]; [|discriminate].
  destruct (fits _); [|discriminate]. injection Hs as <-.
  rewrite !get_at. unfold newAdapter, logout, removeItem, getToken, getItem.
  cbn [or_else localStorage prefix].
  rewrite lookup_insert_ne by (intros E; symmetry in E; exact (Hk _ E)).
  rewrite lookup_delete_ne by (intros E; symmetry in E; exact (Hk _ E)).
  rewrite lookup_insert_ne by apply Hk.
  repeat split.
Qed.

Lemma default_prefix_isolated_witness :
  let area : gmap string string := {[ "swat:cfg" := "true" ]} in
  let area' : gmap string string := <["auth_token" := "t0"]> area in
  let a' := mkAdapter "swat:" (<["swat:cfg" := "false"]> area) in
  login (fun _ => true) area "t0" = Normal area' /\
  set (fun _ => true) bool stringify_literal (newAdapter None area) "cfg"
      (Some false) = Normal a' /\
  get bool parse_literal (newAdapter None area') "cfg"
    = get bool parse_literal (newAdapter None area) "cfg".
Proof.
  intros area area' a'.
  assert (H1 : login (fun _ => true) area "t0" = Normal area')
    by (vm_compute; reflexivity).
  assert (H2 : set (fun _ => true) bool stringify_literal (newAdapter None area)
                 "cfg" (Some false) = Normal a') by (vm_compute; reflexivity).
  split; [exact H1|]. split; [exact H2|].
  exact (proj1 (default_prefix_isolated _ bool _ parse_literal _ _ _ _ "cfg" _ _
                  H1 H2)).
Defined.

End WebStorageFacts.

Module CsvFacts.
Import JS JSFacts Spec StringFacts Stdlib.

Lemma trimStart_head (s : string) (c : ascii) (rest : string) :
  trimStart s = String c rest -> is_space c = false.
Proof.
  induction s as [|d s IH]; simpl; [discriminate|].
  destruct (is_space d) eqn:E; [exact IH|]. now intros [= <- _].
Qed.

Lemma trimEnd_head (s : string) (c : ascii) (rest : string) :
  trimEnd s = String c rest -> exists rest', s = String c rest'.
Proof.
  destruct s as [|d s]; simpl; [discriminate|].
  destruct (trimEnd s); [destruct (is_space d); [discriminate|]|];
    intros [= <- _]; now eexists.
Qed.

Lemma trimEnd_last (s front : string) (c : ascii) :
  trimEnd s = front +:+ String c "" -> is_space c = false.
Proof.
  revert front. induction s as [|d s IH]; intros front; simpl.
  - destruct front; discriminate.
  - destruct (trimEnd s) as [|e r] eqn:E.
    + destruct (is_space d) eqn:Ed; [destruct front; discriminate|].
      destruct front as [|x front]; [now intros [= <-]|].
      rewrite append_cons. intros [= _ H]. destruct front; discriminate.
    + destruct front as [|x front]; [discriminate|].
      rewrite append_cons. intros [= _ H]. exact (IH _ H).
Qed.

(** [trim] leaves no white space at either end. *)
Lemma trim_Trimmed (s : string) : Trimmed (trim s).
Proof.
  unfold trim. split.
  - intros c rest H. destruct (trimEnd_head _ _ _ H) as [rest' H'].
    exact (trimStart_head _ _ _ H').
  - intros front c H. exact (trimEnd_last _ _ _ H).
Qed.

Lemma length_split (sep : ascii) (s : string) :
  length (split sep s) = S (count_char sep s).
Proof.
  induction s as [|c s IH]; simpl; [reflexivity|].
  destruct (Ascii.eqb c sep); simpl; [now rewrite IH|].
  pose proof (split_not_nil sep s) as Hne.
  destruct (split sep s); [congruence | exact IH].
Qed.

(** X10. Every row that [csvParse] returns has at least one cell, so
    [row[0]] is always defined, and no cell starts or ends with white
    space. *)
Theorem csvParse_rows (text : string) :
  Forall (fun row => row <> [] /\ Forall Trimmed row) (csvParse text).
Proof.
  unfold csvParse. apply List.Forall_forall. intros row Hin.
  apply in_map_iff in Hin as (line & <- & _). split.
  - pose proof (split_not_nil "," line) as Hne.
    destruct (split "," line); [congruence | discriminate].
  - apply List.Forall_forall. intros cell Hc.
    apply in_map_iff in Hc as (raw & <- & _). apply trim_Trimmed.
Qed.

(** X11. [csvParse] returns one row for each line of the text that is not
    blank, in order, and the row of a line has one cell more than the line
    has commas: quotes do not protect a comma. *)
Theorem csvParse_shape (text : string) :
  exists lines,
    Kept (fun l => ~ Blank l) (split Commands.nl text) lines /\
    map (fun row => length row) (csvParse text)
    = map (fun l => S (count_char "," l)) lines.
Proof.
  exists (List.filter (fun l => truthy (trim l)) (split Commands.nl text)).
  split.
  - apply filter_Kept. intros l. apply trim_truthy.
  - unfold csvParse. rewrite map_map. apply map_ext. intros line.
    now rewrite length_map, length_split.
Qed.

End CsvFacts.

Module ShellSplitFacts.
Import JS JSFacts Spec StringFacts Terminal TerminalFacts Words.

Lemma plain_char_spec (c : ascii) :
  plain_char c = true ->
  is_space c = false /\ Ascii.eqb c Executor.backslash = false /\
  Ascii.eqb c Executor.dquote = false /\ Ascii.eqb c Executor.squote = false.
Proof.
  unfold plain_char. rewrite !andb_true_iff, !negb_true_iff. tauto.
Qed.

Lemma scan_from_cons (t : Scan) (c : ascii) (s : string) :
  scan_from t (String c s) = scan_from (scan_step t c) s.
Proof. reflexivity. Qed.

(** Plain characters are copied into the current token. *)
Lemma scan_from_plain (w : string) (out : list string) (cur : string) :
  plain w ->
  scan_from (mkScan out cur None false) w = mkScan out (cur +:+ w) None false.
Proof.
  revert cur. induction w as [|c w IH]; intros cur Hw.
  - now rewrite append_nil_r.
  - inversion Hw as [|? ? Hc Hw']; subst.
    destruct (plain_char_spec c Hc) as (Hsp & Hb & Hd & Hs).
    rewrite scan_from_cons. unfold scan_step. cbn [esc qi Terminal.cur Terminal.out].
    rewrite Hb, Hd, Hs, Hsp. cbn [orb]. rewrite (IH _ Hw').
    unfold Executor.add. now rewrite append_assoc.
Qed.

(** Inside a quote everything but the quote and the backslash is copied. *)
Lemma scan_from_quoted (q : ascii) (body : string) (out : list string)
    (cur : string) :
  quotable q body ->
  scan_from (mkScan out cur (Some q) false) body
  = mkScan out (cur +:+ body) (Some q) false.
Proof.
  revert cur. induction body as [|c body IH]; intros cur Hb.
  - now rewrite append_nil_r.
  - inversion Hb as [|? ? [Hq Hbs] Hb']; subst.
    rewrite scan_from_cons. unfold scan_step. cbn [esc qi Terminal.cur Terminal.out].
    rewrite Hbs, Hq. rewrite (IH _ Hb').
    unfold Executor.add. now rewrite append_assoc.
Qed.

Lemma scan_step_space (out : list string) (cur : string) :
  scan_step (mkScan out cur None false) " "
  = if negb (String.eqb cur "") then mkScan (push out cur) "" None false
    else mkScan out cur None false.
Proof. reflexivity. Qed.

(** Plain words separated by single spaces, scanned from an empty current
    token: all but the last are pushed, the last is the current token. *)
Lemma scan_from_words (toks : list string) (out : list string) :
  Forall plain_word toks -> toks <> [] ->
  scan_from (mkScan out "" None false) (join " " toks)
  = mkScan (out ++ removelast toks) (List.last toks "") None false.
Proof.
  intros Hall. revert out. induction Hall as [|t toks [Hne Ht] Hrest IH];
    intros out Hnil; [congruence|]. clear Hnil.
  destruct toks as [|t' toks].
  - cbn [join String.concat removelast List.last].
    rewrite (scan_from_plain t out "" Ht), app_nil_r. reflexivity.
  - change (join " " (t :: t' :: toks))
      with (t +:+ String " " (join " " (t' :: toks))).
    rewrite scan_from_app, (scan_from_plain t out "" Ht), append_nil_l.
    rewrite scan_from_cons, scan_step_space.
    destruct (String.eqb_spec t ""); [congruence|]. cbn [negb].
    rewrite IH by discriminate. unfold push.
    change (removelast (t :: t' :: toks)) with (t :: removelast (t' :: toks)).
    change (List.last (t :: t' :: toks) "") with (List.last (t' :: toks) "").
    now rewrite <- app_assoc.
Qed.

Lemma plain_word_last (toks : list string) :
  Forall plain_word toks -> toks <> [] -> List.last toks "" <> "".
Proof.
  intros Hall Hne. rewrite List.Forall_forall in Hall.
  destruct (exists_last Hne) as (front & x & ->).
  rewrite last_last. apply Hall. apply in_or_app. right. now left.
Qed.

(** The state after plain words is that of a line that has pushed them all
    once a space follows. *)
Lemma scan_from_words_space (toks : list string) :
  Forall plain_word toks ->
  scan_from start (join " " toks +:+ " ") = mkScan toks "" None false.
Proof.
  intros Hall. destruct toks as [|t toks].
  - reflexivity.
  - rewrite scan_from_app. unfold start.
    rewrite (scan_from_words (t :: toks) [] Hall) by discriminate.
    change (scan_from ?s " ") with (scan_step s " ").
    rewrite scan_step_space.
    destruct (String.eqb_spec (List.last (t :: toks) "") "") as [E|_].
    + exfalso. now apply (plain_word_last (t :: toks) Hall).
    + cbn [negb]. unfold push. rewrite app_nil_l.
      now rewrite <- (app_removelast_last "") by discriminate.
Qed.

Lemma scan_step_out_nonempty (t : Scan) (c : ascii) :
  Forall (fun tok => tok <> "") (out t) ->
  Forall (fun tok => tok <> "") (out (scan_step t c)).
Proof.
  intros H. unfold scan_step.
  destruct (esc t); [exact H|].
  destruct (Ascii.eqb c Executor.backslash); [exact H|].
  destruct (qi t); [destruct (Ascii.eqb c a); exact H|].
  destruct (Ascii.eqb c Executor.dquote || Ascii.eqb c Executor.squote);
    [exact H|].
  destruct (is_space c); [|exact H].
  destruct (String.eqb_spec (cur t) "") as [E|E]; cbn [negb]; [exact H|].
  cbn [out]. unfold push. apply Forall_app. split; [exact H|].
  now constructor.
Qed.

Lemma scan_from_out_nonempty (s : string) (t : Scan) :
  Forall (fun tok => tok <> "") (out t) ->
  Forall (fun tok => tok <> "") (out (scan_from t s)).
Proof.
  revert t. induction s as [|c s IH]; intros t H; [exact H|].
  rewrite scan_from_cons. apply IH. now apply scan_step_out_nonempty.
Qed.

(** X12. [shellSplit] never returns an empty token (an empty quoted string
    is no argument), and white space before the first token is ignored. *)
Theorem shellSplit_tokens_nonempty (s : string) :
  Forall (fun tok => tok <> "") (shellSplit s) /\
  shellSplit (trimStart s) = shellSplit s.
Proof.
  split.
  - unfold shellSplit.
    assert (H : Forall (fun tok => tok <> "") (out (scan s)))
      by (apply scan_from_out_nonempty; constructor).
    destruct (String.eqb_spec (cur (scan s)) "") as [E|E]; cbn [negb];
      [exact H|].
    unfold push. apply Forall_app. split; [exact H | now constructor].
  - unfold shellSplit. now rewrite scan_trimStart.
Qed.

(** X13. Splitting undoes joining: plain words (not empty, without white
    space, quote or backslash) joined by single spaces split back into the
    same words. *)
Theorem shellSplit_join (toks : list string) :
  Forall plain_word toks -> shellSplit (join " " toks) = toks.
Proof.
  intros Hall. destruct toks as [|t toks]; [reflexivity|].
  unfold shellSplit, scan, start.
  rewrite (scan_from_words (t :: toks) [] Hall) by discriminate.
  cbn [cur out].
  destruct (String.eqb_spec (List.last (t :: toks) "") "") as [E|_].
  - exfalso. now apply (plain_word_last (t :: toks) Hall).
  - cbn [negb]. unfold push. rewrite app_nil_l.
    now rewrite <- (app_removelast_last "") by discriminate.
Qed.

Lemma shellSplit_join_witness :
  Forall plain_word ["grep"; "two"] /\
  shellSplit "grep two" = ["grep"; "two"].
Proof.
  assert (H : Forall plain_word ["grep"; "two"]).
  { repeat constructor; try discriminate. }
  split; [exact H|]. exact (shellSplit_join _ H).
Defined.

(** X14. A quoted argument is one token, taken as it is: after plain words
    and a space, a string in single or double quotes that holds neither that
    quote nor a backslash gives exactly its content as the next token; when
    the content is empty it gives no token. *)
Theorem shellSplit_quoted (toks : list string) (q : ascii) (body : string) :
  Forall plain_word toks ->
  q = Executor.dquote \/ q = Executor.squote ->
  quotable q body ->
  shellSplit (join " " toks +:+ " " +:+ String q (body +:+ String q ""))
  = toks ++ (if String.eqb body "" then [] else [body]).
Proof.
  intros Hall Hq Hb. unfold shellSplit, scan.
  replace (join " " toks +:+ " " +:+ String q (body +:+ String q ""))
    with ((join " " toks +:+ " ") +:+ String q (body +:+ String q ""))
    by now rewrite append_assoc.
  rewrite scan_from_app, (scan_from_words_space toks Hall).
  rewrite scan_from_cons.
  assert (Hopen : scan_step (mkScan toks "" None false) q
                  = mkScan toks "" (Some q) false)
    by (destruct Hq as [-> | ->]; reflexivity).
  rewrite Hopen, scan_from_app, (scan_from_quoted q body toks "" Hb).
  rewrite append_nil_l.
  assert (Hclose : scan_from (mkScan toks body (Some q) false) (String q "")
                   = mkScan toks body None false).
  { rewrite scan_from_cons. unfold scan_step. cbn [esc qi cur out].
    rewrite Ascii.eqb_refl. now destruct Hq as [-> | ->]. }
  rewrite Hclose. cbn [cur out].
  destruct (String.eqb body ""); cbn [negb]; [now rewrite app_nil_r|].
  reflexivity.
Qed.

Lemma shellSplit_quoted_witness :
  Forall plain_word ["echo"] /\
  (Executor.squote = Executor.dquote \/ Executor.squote = Executor.squote) /\
  quotable Executor.squote "a  b" /\
  shellSplit "echo 'a  b'" = ["echo"; "a  b"] /\
  shellSplit "echo ''" = ["echo"].
Proof.
  assert (H1 : Forall plain_word ["echo"])
    by (repeat constructor; discriminate).
  assert (H2 : Executor.squote = Executor.dquote
               \/ Executor.squote = Executor.squote) by now right.
  assert (H3 : quotable Executor.squote "a  b") by (repeat constructor).
  assert (H4 : quotable Executor.squote "") by constructor.
  split; [exact H1|]. split; [exact H2|]. split; [exact H3|]. split.
  - exact (shellSplit_quoted ["echo"] _ "a  b" H1 H2 H3).
  - exact (shellSplit_quoted ["echo"] _ "" H1 H2 H4).
Defined.

(** X15. A backslash makes the next character part of the token, whatever
    it is (a space, a quote, a backslash), and is itself dropped; a
    backslash at the very end of the line is dropped silently. *)
Theorem shellSplit_backslash (a b : string) (c : ascii) :
  plain a -> plain b ->
  shellSplit (a +:+ String Executor.backslash (String c b))
    = [a +:+ String c b] /\
  shellSplit (a +:+ String Executor.backslash "") = shellSplit a.
Proof.
  intros Ha Hb.
  assert (Hesc : forall rest,
    scan (a +:+ String Executor.backslash rest)
    = scan_from (mkScan [] a None true) rest).
  { intros rest. unfold scan, start.
    rewrite scan_from_app, (scan_from_plain a [] "" Ha), append_nil_l.
    now rewrite scan_from_cons. }
  split.
  - unfold shellSplit. rewrite Hesc, scan_from_cons.
    change (scan_step (mkScan [] a None true) c)
      with (mkScan [] (Executor.add a c) None false).
    rewrite (scan_from_plain b [] _ Hb). cbn [cur out].
    unfold Executor.add. rewrite append_assoc.
    change (String c "" +:+ b) with (String c b).
    destruct (String.eqb_spec (a +:+ String c b) "") as [E|_]; [|reflexivity].
    destruct a; discriminate.
  - unfold shellSplit. rewrite Hesc. unfold scan, start.
    rewrite (scan_from_plain a [] "" Ha), append_nil_l. reflexivity.
Qed.

Lemma shellSplit_backslash_witness :
  plain "my" /\ plain "file" /\
  shellSplit ("my" +:+ String Executor.backslash " file") = ["my file"].
Proof.
  assert (H1 : plain "my") by (repeat constructor).
  assert (H2 : plain "file") by (repeat constructor).
  split; [exact H1|]. split; [exact H2|].
  exact (proj1 (shellSplit_backslash "my" "file" " " H1 H2)).
Defined.

Lemma string_snoc (v : string) :
  v = "" \/ exists s c, v = s +:+ String c "".
Proof.
  induction v as [|a v IH]; [now left|right].
  destruct IH as [-> | (s & c & ->)].
  - now exists "", a.
  - exists (String a s), c. now rewrite append_cons.
Qed.

Lemma snoc_inj (a b : string) (c : ascii) :
  a +:+ String c "" = b +:+ String c "" -> a = b.
Proof.
  revert b. induction a as [|x a IH]; intros [|y b];
    rewrite ?append_nil_l, ?append_cons.
  - reflexivity.
  - intros [= _ H]. destruct b; discriminate.
  - intros [= _ H]. destruct a; discriminate.
  - intros [= -> H]. f_equal. now apply IH.
Qed.

(** The loop ends with [esc] set only when the last character of the line
    is a backslash that is not itself escaped; that backslash changes
    nothing else. *)
Lemma scan_dangling_backslash (value : string) :
  esc (scan value) = true ->
  exists s, value = s +:+ String Executor.backslash "" /\
            esc (scan s) = false /\
            out (scan value) = out (scan s) /\
            cur (scan value) = cur (scan s) /\
            qi (scan value) = qi (scan s).
Proof.
  destruct (string_snoc value) as [-> | (s & c & ->)]; [discriminate|].
  rewrite scan_eq, scan_from_app, <- scan_eq.
  change (scan_from (scan s) (String c "")) with (scan_step (scan s) c).
  unfold scan_step. destruct (esc (scan s)) eqn:Ee; [discriminate|].
  destruct (Ascii.eqb_spec c Executor.backslash) as [-> | _].
  - intros _. exists s. now repeat split.
  - intros H. exfalso. revert H.
    destruct (qi (scan s)) as [q|].
    + destruct (Ascii.eqb c q); cbn [esc]; discriminate.
    + destruct (_ || _); [cbn [esc]; discriminate|].
      destruct (is_space c); [|cbn [esc]; discriminate].
      destruct (negb _); cbn [esc]; rewrite ?Ee; discriminate.
Qed.

(** X27. [shellSplit] has no failure path for a quote that is never
    closed: on a line that ends inside an open single or double quote it
    returns the tokens of the line with that quote closed at its end; when
    the line moreover ends in a dangling backslash (one that is not itself
    escaped), that backslash is dropped first. *)
Theorem shellSplit_open_quote_tokens (value : string) :
  unterminated value = true ->
  exists q, qi (scan value) = Some q /\
            (q = Executor.dquote \/ q = Executor.squote) /\
            (esc (scan value) = false ->
             shellSplit value = shellSplit (value +:+ String q "")) /\
            (esc (scan value) = true ->
             exists s, value = s +:+ String Executor.backslash "" /\
                       shellSplit value = shellSplit s /\
                       shellSplit value = shellSplit (s +:+ String q "")).
Proof.
  unfold unterminated. destruct (qi (scan value)) as [q|] eqn:Eq;
    [intros _|discriminate].
  exists q. split; [reflexivity|]. split; [exact (scan_qi_quote _ _ Eq)|].
  split.
  - intros He. symmetry. now apply shellSplit_open_quote.
  - intros He.
    destruct (scan_dangling_backslash value He)
      as (s & Hv & Hes & Ho & Hcu & Hq).
    exists s. split; [exact Hv|].
    assert (Hs : shellSplit value = shellSplit s).
    { unfold shellSplit. cbv zeta. now rewrite Ho, Hcu. }
    split; [exact Hs|]. rewrite Hs. symmetry.
    apply shellSplit_open_quote; [|exact Hes]. now rewrite <- Hq.
Qed.

Lemma shellSplit_open_quote_tokens_witness :
  let dangling := open_quote_line +:+ String Executor.backslash "" in
  unterminated open_quote_line = true /\
  unterminated dangling = true /\
  shellSplit open_quote_line
    = shellSplit (open_quote_line +:+ String Executor.dquote "") /\
  shellSplit dangling
    = shellSplit (open_quote_line +:+ String Executor.dquote "") /\
  shellSplit dangling = ["echo"; "abc"].
Proof.
  intros dangling.
  assert (H1 : unterminated open_quote_line = true) by (vm_compute; reflexivity).
  assert (H2 : unterminated dangling = true) by (vm_compute; reflexivity).
  split; [exact H1|]. split; [exact H2|]. split; [|split].
  - destruct (shellSplit_open_quote_tokens open_quote_line H1)
      as (q & Hq & _ & Hclosed & _).
    vm_compute in Hq. injection Hq as <-.
    apply Hclosed. vm_compute. reflexivity.
  - destruct (shellSplit_open_quote_tokens dangling H2)
      as (q & Hq & _ & _ & Hdrop).
    vm_compute in Hq. injection Hq as <-.
    destruct Hdrop as (s & Hv & Hs & _); [vm_compute; reflexivity|].
    apply snoc_inj in Hv. subst s.
    rewrite Hs. vm_compute. reflexivity.
  - vm_compute. reflexivity.
Defined.

End ShellSplitFacts.

Module HandlerFacts.
Import JS JSFacts Spec StringFacts Commands Words.

(** X17. Of the built-in commands only [write] can throw, and it does
    throw when it is called without any argument (its path is then
    [undefined]); every other built-in returns its failures as a result
    (the calls to [vfs.list], [vfs.cwd] and [registry.list] taken not to
    throw). *)
Theorem builtin_throws (host : Host) (b : Builtin) (ctx : Context)
    (st : VFS.FileSystemState) :
  ((exists message, fst (handler_of host b ctx st) = Throw message) ->
   b = Write) /\
  (args ctx = [] ->
   exists message, fst (handler_of host Write ctx st) = Throw message).
Proof.
  split.
  - intros [message H].
    destruct b; cbn [handler_of] in H;
      unfold echo, pwd, write, cat, ls, history, curl, grep, help in H;
      destruct (help_requested (args ctx)); cbn [fst] in H;
      try discriminate; try reflexivity.
    + destruct (args ctx); [discriminate|].
      destruct (VFS.read st s); discriminate.
    + destruct (falsy (head (args ctx))); [discriminate|].
      destruct (negb _); discriminate.
    + destruct (falsy (head (args ctx))); discriminate.
  - intros Hargs. cbn [handler_of]. unfold write. rewrite Hargs.
    cbn. now eexists.
Qed.

Lemma piped_grep (pattern input : string) (cmds : list string)
    (st : VFS.FileSystemState) :
  pattern <> "" -> help_requested [pattern] = false ->
  piped (grep (mkContext [pattern] input cmds) st)
  = printed (kept_by pattern (split nl input)).
Proof.
  intros Hne Hh. unfold grep. cbn [args Commands.stdin]. rewrite Hh.
  cbn [head falsy the default].
  rewrite (WebStorageFacts.truthy_ne _ Hne). cbn [negb piped fst stdout out].
  unfold kept_by. now rewrite filter_filter.
Qed.

(** Printing lines and splitting them again gives the lines that are not
    blank. *)
Lemma lines_of_output (matches : list string) :
  Forall (fun l => sepfree nl l = true) matches ->
  Forall (fun l => truthy (trim l) = true) matches ->
  List.filter (fun l => truthy (trim l)) (split nl (printed matches))
  = matches.
Proof.
  intros Hsep Hnb. destruct matches as [|m ms]; [reflexivity|].
  unfold printed. change (nl_if_any (m :: ms)) with (String nl "").
  rewrite split_app_sep, List.filter_app.
  rewrite split_join by (discriminate || exact Hsep).
  change (List.filter (fun l => truthy (trim l)) (split nl "")) with (@nil string).
  rewrite app_nil_r. apply forallb_filter_id.
  apply forallb_forall. rewrite List.Forall_forall in Hnb. exact Hnb.
Qed.

Lemma kept_by_sepfree (pattern input : string) :
  Forall (fun l => sepfree nl l = true) (kept_by pattern (split nl input)).
Proof.
  apply List.Forall_forall. intros l [Hin _]%filter_In.
  pose proof (split_all_sepfree nl input) as H.
  rewrite List.Forall_forall in H. now apply H.
Qed.

Lemma kept_by_not_blank (pattern : string) (lines : list string) :
  Forall (fun l => truthy (trim l) = true) (kept_by pattern lines).
Proof.
  apply List.Forall_forall. intros l [_ H]%filter_In.
  now apply andb_prop in H.
Qed.

(** Running [grep] on the output of [grep]. *)
Lemma kept_by_output (p q input : string) :
  kept_by q (split nl (printed (kept_by p (split nl input))))
  = List.filter (fun l => includes l q) (kept_by p (split nl input)).
Proof.
  unfold kept_by at 1. rewrite <- filter_filter.
  rewrite lines_of_output;
    [reflexivity | apply kept_by_sepfree | apply kept_by_not_blank].
Qed.

(** X18. [grep] is idempotent: piping the output of [grep pattern] into
    [grep pattern] again gives the same output. *)
Theorem grep_idempotent (pattern input : string) (cmds : list string)
    (st : VFS.FileSystemState) :
  pattern <> "" -> help_requested [pattern] = false ->
  piped (grep (mkContext [pattern]
                 (piped (grep (mkContext [pattern] input cmds) st)) cmds) st)
  = piped (grep (mkContext [pattern] input cmds) st).
Proof.
  intros Hne Hh. rewrite (piped_grep pattern input cmds st Hne Hh).
  rewrite (piped_grep pattern _ cmds st Hne Hh).
  rewrite (kept_by_output pattern pattern input).
  assert (E : List.filter (fun l => includes l pattern)
                (kept_by pattern (split nl input))
              = kept_by pattern (split nl input)).
  { apply forallb_filter_id. apply forallb_forall.
    intros l [_ H]%filter_In. now apply andb_prop in H. }
  now rewrite E.
Qed.

Lemma grep_idempotent_witness :
  let input := "one two" +:+ LF +:+ "three" +:+ LF +:+ LF +:+ "two" +:+ LF in
  "two" <> "" /\ help_requested ["two"] = false /\
  piped (grep (mkContext ["two"] input []) VFS.empty_fs)
    = "one two" +:+ LF +:+ "two" +:+ LF /\
  piped (grep (mkContext ["two"]
                 (piped (grep (mkContext ["two"] input []) VFS.empty_fs)) [])
              VFS.empty_fs)
    = piped (grep (mkContext ["two"] input []) VFS.empty_fs).
Proof.
  intros input.
  assert (H1 : "two" <> "") by discriminate.
  assert (H2 : help_requested ["two"] = false) by reflexivity.
  split; [exact H1|]. split; [exact H2|]. split; [reflexivity|].
  exact (grep_idempotent "two" input [] VFS.empty_fs H1 H2).
Defined.

(** X19. Two [grep] stages commute: [grep p | grep q] and
    [grep q | grep p] print the same lines. *)
Theorem grep_commutes (p q input : string) (cmds : list string)
    (st : VFS.FileSystemState) :
  p <> "" -> q <> "" ->
  help_requested [p] = false -> help_requested [q] = false ->
  piped (grep (mkContext [q]
                 (piped (grep (mkContext [p] input cmds) st)) cmds) st)
  = piped (grep (mkContext [p]
                   (piped (grep (mkContext [q] input cmds) st)) cmds) st).
Proof.
  intros Hp Hq Hhp Hhq.
  rewrite (piped_grep p input cmds st Hp Hhp).
  rewrite (piped_grep q input cmds st Hq Hhq).
  rewrite (piped_grep q _ cmds st Hq Hhq), (piped_grep p _ cmds st Hp Hhp).
  rewrite (kept_by_output p q input), (kept_by_output q p input).
  assert (E : List.filter (fun l => includes l q) (kept_by p (split nl input))
              = List.filter (fun l => includes l p)
                  (kept_by q (split nl input))).
  { unfold kept_by. rewrite !filter_filter. apply filter_ext. intros l.
    destruct (truthy (trim l)), (includes l p), (includes l q); reflexivity. }
  now rewrite E.
Qed.

Lemma grep_commutes_witness :
  let input := "ab" +:+ LF +:+ "a" +:+ LF +:+ "b" +:+ LF +:+ "ba" +:+ LF in
  "a" <> "" /\ "b" <> "" /\
  help_requested ["a"] = false /\ help_requested ["b"] = false /\
  piped (grep (mkContext ["b"]
                 (piped (grep (mkContext ["a"] input []) VFS.empty_fs)) [])
              VFS.empty_fs)
    = "ab" +:+ LF +:+ "ba" +:+ LF.
Proof.
  intros input.
  assert (H1 : "a" <> "") by discriminate.
  assert (H2 : "b" <> "") by discriminate.
  assert (H3 : help_requested ["a"] = false) by reflexivity.
  assert (H4 : help_requested ["b"] = false) by reflexivity.
  repeat (split; [assumption|]).
  rewrite (grep_commutes "a" "b" input [] VFS.empty_fs H1 H2 H3 H4).
  reflexivity.
Defined.

End HandlerFacts.

Module FetchFacts.
Import JS JSFacts Commands Stdlib.

Section Network.

Variable Json : Type.
Variable fetch : string -> completion Response.
Variable JSON_parse : string -> completion Json.
Variable now : Z.

Lemma curl_reads (url input : string) (cmds : list string)
    (st : VFS.FileSystemState) :
  url <> "" -> help_requested [url] = false ->
  curl (host Json fetch JSON_parse now) (mkContext [url] input cmds) st
  = (let r := safeFetch Json fetch JSON_parse url in
     if negb (ok Json r) then
       (Normal (err ("curl: failed: "
                     +:+ or_else (error Json r) (pretty (status Json r)) +:+ LF)),
        st)
     else (Normal (out (text Json r)), st)).
Proof.
  intros Hne Hh. unfold curl. cbn [args]. rewrite Hh.
  cbn [head falsy]. rewrite (WebStorageFacts.truthy_ne _ Hne). cbn [negb].
  reflexivity.
Qed.

(** X20. A response with a 2xx status whose body is not valid JSON is
    reported by [safeFetch] as a failure: [ok] false, [status] 0, an empty
    [text], and the message of the parser as [error]; [curl] then prints
    that message on stderr and not the body. *)
Theorem safeFetch_ok_but_not_json (url input body message : string)
    (res : Response) (cmds : list string) (st : VFS.FileSystemState) :
  url <> "" -> help_requested [url] = false ->
  fetch url = Normal res ->
  res_ok res = true ->
  res_text res = Normal body ->
  JSON_parse body = Throw message ->
  message <> "" ->
  safeFetch Json fetch JSON_parse url
    = mkFetchResult Json false 0 "" None (Some message) /\
  curl (host Json fetch JSON_parse now) (mkContext [url] input cmds) st
    = (Normal (err ("curl: failed: " +:+ message +:+ LF)), st).
Proof.
  intros Hne Hh Hf Hok Ht Hp Hm.
  assert (E : safeFetch Json fetch JSON_parse url
              = mkFetchResult Json false 0 "" None (Some message)).
  { unfold safeFetch. now rewrite Hf, Ht, Hok, Hp. }
  split; [exact E|].
  rewrite (curl_reads url input cmds st Hne Hh). cbv zeta. rewrite E.
  cbn [ok error status negb or_else].
  now rewrite (WebStorageFacts.truthy_ne _ Hm).
Qed.

(** X21. [curl] prints a body on stdout exactly when the request resolved
    with a 2xx status and the body read from it parses as JSON; the stdout
    is then that body, unchanged. *)
Theorem curl_prints_body_iff (url input body : string) (cmds : list string)
    (st : VFS.FileSystemState) :
  url <> "" -> help_requested [url] = false ->
  curl (host Json fetch JSON_parse now) (mkContext [url] input cmds) st
    = (Normal (out body), st)
  <-> exists res parsed,
        fetch url = Normal res /\ res_ok res = true /\
        res_text res = Normal body /\ JSON_parse body = Normal parsed.
Proof.
  intros Hne Hh. rewrite (curl_reads url input cmds st Hne Hh). cbv zeta.
  unfold safeFetch.
  destruct (fetch url) as [res|m]; [|cbn; split; [discriminate|]].
  - destruct (res_text res) as [t|m] eqn:Et; [|cbn; split; [discriminate|]].
    + destruct (res_ok res) eqn:Eo.
      * destruct (JSON_parse t) as [parsed|m] eqn:Ep; cbn.
        -- split.
           ++ intros [= <-]. now exists res, parsed.
           ++ intros (res' & parsed' & [= <-] & _ & Ht & _).
              rewrite Et in Ht. now injection Ht as ->.
        -- split; [discriminate|].
           intros (res' & parsed' & [= <-] & _ & Ht & Hp).
           rewrite Et in Ht. injection Ht as ->. congruence.
      * cbn. split; [discriminate|].
        intros (res' & parsed' & [= <-] & Hok & _). congruence.
    + intros (res' & parsed' & [= <-] & _ & Ht & _). congruence.
  - intros (res' & parsed' & Hf & _). discriminate.
Qed.

(** X22. For a response that is not 2xx, [safeFetch] keeps status and body
    and reports no error, and [curl] prints the status code on stderr:
    [curl: failed: <status>]; the body is not shown. *)
Theorem curl_reports_status (url input body : string) (res : Response)
    (cmds : list string) (st : VFS.FileSystemState) :
  url <> "" -> help_requested [url] = false ->
  fetch url = Normal res ->
  res_ok res = false ->
  res_text res = Normal body ->
  safeFetch Json fetch JSON_parse url
    = mkFetchResult Json false (res_status res) body None None /\
  curl (host Json fetch JSON_parse now) (mkContext [url] input cmds) st
    = (Normal (err ("curl: failed: " +:+ pretty (res_status res) +:+ LF)), st).
Proof.
  intros Hne Hh Hf Hok Ht.
  assert (E : safeFetch Json fetch JSON_parse url
              = mkFetchResult Json false (res_status res) body None None).
  { unfold safeFetch. now rewrite Hf, Ht, Hok. }
  split; [exact E|].
  rewrite (curl_reads url input cmds st Hne Hh). cbv zeta. now rewrite E.
Qed.

End Network.

Lemma safeFetch_ok_but_not_json_witness :
  let page := mkResponse true 200 (Normal "<html>hello</html>") in
  curl (host (option bool) (serving page) Storage.parse_literal 0)
       (mkContext ["http://example.org/"] "" []) VFS.empty_fs
    = (Normal (err ("curl: failed: Unexpected token" +:+ LF)), VFS.empty_fs).
Proof.
  intros page.
  refine (proj2 (safeFetch_ok_but_not_json (option bool) (serving page)
                   Storage.parse_literal 0
                   "http://example.org/" "" "<html>hello</html>"
                   "Unexpected token" page [] VFS.empty_fs
                   _ _ _ _ _ _ _));
    try reflexivity; discriminate.
Defined.

Lemma curl_prints_body_iff_witness :
  let page := mkResponse true 200 (Normal "true") in
  curl (host (option bool) (serving page) Storage.parse_literal 0)
       (mkContext ["http://example.org/flag"] "" []) VFS.empty_fs
    = (Normal (out "true"), VFS.empty_fs).
Proof.
  intros page.
  apply (curl_prints_body_iff (option bool) (serving page)
           Storage.parse_literal 0 "http://example.org/flag" "" "true" []
           VFS.empty_fs); [discriminate | reflexivity |].
  exists page, (Some true). repeat split.
Defined.

Lemma curl_reports_status_witness :
  let page := mkResponse false 404 (Normal "not here") in
  curl (host (option bool) (serving page) Storage.parse_literal 0)
       (mkContext ["http://example.org/missing"] "" []) VFS.empty_fs
    = (Normal (err ("curl: failed: 404" +:+ LF)), VFS.empty_fs).
Proof.
  intros page.
  refine (proj2 (curl_reports_status (option bool) (serving page)
                   Storage.parse_literal 0 "http://example.org/missing" ""
                   "not here" page [] VFS.empty_fs _ _ _ _ _));
    try reflexivity; discriminate.
Defined.

End FetchFacts.

Module PromptFacts.
Import Prompt.

(** X23. The history index stays in range: from an index that is [-1] or
    points into the history, ArrowUp and ArrowDown lead to such an index
    again, and ArrowUp on a history that is not empty always points at an
    entry. *)
Theorem navigation_in_range (h : list string) (p : Prompt) :
  in_range h p ->
  in_range h (onArrowUp h p) /\
  in_range h (onArrowDown h p) /\
  (h <> [] -> (0 <= historyIndex (onArrowUp h p) < Z.of_nat (length h))%Z).
Proof.
  unfold in_range, onArrowUp, onArrowDown. intros Hp.
  destruct h as [|x h'].
  - split; [exact Hp|]. split; [exact Hp|]. intros H. congruence.
  - change ((length (x :: h') =? 0)%nat) with false. cbv iota.
    remember (length (x :: h')) as n eqn:Hn.
    assert (Hpos : 1 <= n) by (subst n; simpl; lia). clear Hn.
    destruct (Z.eqb_spec (historyIndex p) (-1)) as [E1|E1];
      cbn [historyIndex]; (split; [|split]); intros; lia.
Qed.

Lemma navigation_in_range_witness :
  let h := ["ls"; "pwd"] in
  in_range h fresh /\
  in_range h (onArrowUp h fresh) /\
  in_range h (onArrowDown h (onArrowUp h fresh)).
Proof.
  intros h.
  assert (H : in_range h fresh) by now left.
  split; [exact H|].
  pose proof (proj1 (navigation_in_range h fresh H)) as H1.
  split; [exact H1|].
  exact (proj1 (proj2 (navigation_in_range h _ H1))).
Defined.

(** X24. Pressing ArrowUp [k] times from a fresh prompt shows the [k]-th
    newest entry of the history, and the oldest one once [k] exceeds the
    length of the history. *)
Theorem arrow_up_k_times (h : list string) (k : nat) :
  h <> [] -> 1 <= k ->
  Nat.iter k (onArrowUp h) fresh
  = (let i := Z.max 0 (Z.of_nat (length h) - Z.of_nat k) in
     mkPrompt i (entry h i)).
Proof.
  intros Hh Hk. cbv zeta.
  assert (Hn : (length h =? 0)%nat = false).
  { apply Nat.eqb_neq. destruct h; [congruence | discriminate]. }
  assert (Hlen : 1 <= length h) by (destruct h; [congruence | simpl; lia]).
  induction k as [|k IH]; [lia|].
  destruct k as [|k].
  - cbn [Nat.iter]. unfold onArrowUp, fresh. rewrite Hn. cbn [historyIndex].
    change ((-1 =? -1)%Z) with true. cbn iota.
    replace (Z.max 0 (Z.of_nat (length h) - Z.of_nat 1))
      with (Z.of_nat (length h) - 1)%Z by lia.
    reflexivity.
  - change (Nat.iter (S (S k)) (onArrowUp h) fresh)
      with (onArrowUp h (Nat.iter (S k) (onArrowUp h) fresh)).
    rewrite IH by lia. unfold onArrowUp at 1. rewrite Hn. cbn [historyIndex].
    destruct (Z.eqb_spec (Z.max 0 (Z.of_nat (length h) - Z.of_nat (S k))) (-1));
      [lia|].
    replace (Z.max 0 (Z.max 0 (Z.of_nat (length h) - Z.of_nat (S k)) - 1))
      with (Z.max 0 (Z.of_nat (length h) - Z.of_nat (S (S k)))) by lia.
    reflexivity.
Qed.

Lemma arrow_up_k_times_witness :
  let h := ["ls"; "pwd"; "echo hi"] in
  h <> [] /\ 1 <= 2 /\
  Nat.iter 2 (onArrowUp h) fresh = mkPrompt 1 "pwd" /\
  Nat.iter 5 (onArrowUp h) fresh = mkPrompt 0 "ls".
Proof.
  intros h.
  assert (H1 : h <> []) by discriminate.
  assert (H2 : 1 <= 2) by lia.
  assert (H3 : 1 <= 5) by lia.
  split; [exact H1|]. split; [exact H2|]. split.
  - exact (arrow_up_k_times h 2 H1 H2).
  - exact (arrow_up_k_times h 5 H1 H3).
Defined.

(** X25. ArrowDown never shows the newest entry: whenever it arrives at
    the last index it empties the input.  So ArrowUp followed by ArrowDown
    leaves an empty input with the index on the newest entry, and a further
    ArrowUp shows the entry before the newest. *)
Theorem arrow_down_blanks_newest (h : list string) (p : Prompt) :
  h <> [] ->
  (historyIndex p <> (-1)%Z ->
   historyIndex (onArrowDown h p) = (Z.of_nat (length h) - 1)%Z ->
   value (onArrowDown h p) = "") /\
  onArrowDown h (onArrowUp h fresh) = mkPrompt (Z.of_nat (length h) - 1) "" /\
  (2 <= length h ->
   onArrowUp h (onArrowDown h (onArrowUp h fresh))
   = mkPrompt (Z.of_nat (length h) - 2)
              (entry h (Z.of_nat (length h) - 2))).
Proof.
  intros Hh.
  assert (Hn : (length h =? 0)%nat = false).
  { apply Nat.eqb_neq. destruct h; [congruence | discriminate]. }
  assert (Hlen : 1 <= length h) by (destruct h; [congruence | simpl; lia]).
  assert (Hdown : onArrowDown h (onArrowUp h fresh)
                  = mkPrompt (Z.of_nat (length h) - 1) "").
  { unfold onArrowUp, onArrowDown, fresh. rewrite Hn. cbn [historyIndex].
    change ((-1 =? -1)%Z) with true. cbn iota.
    destruct (Z.eqb_spec (Z.of_nat (length h) - 1) (-1)); [lia|].
    replace (Z.min (Z.of_nat (length h) - 1) (Z.of_nat (length h) - 1 + 1))
      with (Z.of_nat (length h) - 1)%Z by lia.
    now rewrite Z.eqb_refl. }
  split; [|split].
  - intros Hp Hi. unfold onArrowDown in *. rewrite Hn in *.
    destruct (Z.eqb_spec (historyIndex p) (-1)); [contradiction|].
    cbn [historyIndex value] in *. rewrite Hi. now rewrite Z.eqb_refl.
  - exact Hdown.
  - intros H2. rewrite Hdown. unfold onArrowUp. rewrite Hn. cbn [historyIndex].
    destruct (Z.eqb_spec (Z.of_nat (length h) - 1) (-1)); [lia|].
    replace (Z.max 0 (Z.of_nat (length h) - 1 - 1))
      with (Z.of_nat (length h) - 2)%Z by lia.
    reflexivity.
Qed.

Lemma arrow_down_blanks_newest_witness :
  let h := ["ls"; "pwd"; "echo hi"] in
  h <> [] /\
  onArrowDown h (onArrowUp h fresh) = mkPrompt 2 "" /\
  onArrowUp h (onArrowDown h (onArrowUp h fresh)) = mkPrompt 1 "pwd".
Proof.
  intros h.
  assert (H1 : h <> []) by discriminate.
  destruct (arrow_down_blanks_newest h fresh H1) as (_ & H2 & H3).
  split; [exact H1|]. split; [exact H2|]. apply H3. simpl. lia.
Defined.

(** X26. [bootstrap] writes its sample files only into a filesystem without
    files: it never changes a file that exists, the filesystem has files
    afterwards, and running it again changes nothing. *)
Theorem bootstrap_once (now1 now2 now3 now4 : Z) (st : VFS.FileSystemState) :
  bootstrap now3 now4 (bootstrap now1 now2 st) = bootstrap now1 now2 st /\
  size (VFS.files (bootstrap now1 now2 st)) <> 0 /\
  (forall k node, VFS.files st !! k = Some node ->
                  VFS.files (bootstrap now1 now2 st) !! k = Some node).
Proof.
  assert (Hsize : size (VFS.files (bootstrap now1 now2 st)) <> 0).
  { unfold bootstrap. destruct (Nat.eqb_spec (size (VFS.files st)) 0) as [E|E];
      [|exact E].
    unfold VFS.write. cbn [VFS.files]. intros H.
    apply map_size_empty_iff in H. exact (insert_non_empty _ _ _ H). }
  split; [|split].
  - unfold bootstrap at 1. apply Nat.eqb_neq in Hsize. now rewrite Hsize.
  - exact Hsize.
  - intros k node Hk. unfold bootstrap.
    destruct (Nat.eqb_spec (size (VFS.files st)) 0) as [E|E]; [|exact Hk].
    apply map_size_empty_iff in E. rewrite E in Hk.
    rewrite lookup_empty in Hk. discriminate.
Qed.

End PromptFacts.
